(** * Relationship Graph Explorer: the React client (frontend/src/App.jsx)

    A shallow embedding of the [GraphExplorer] component: its eight state
    hooks, its three effects with their dependency arrays, the event
    handlers wired in the JSX and the d3 scene built by the [graphData]
    effect (force simulation, click and drag handlers).

    Numbers of the script are rationals ([Q]); the radial depth is an
    integer ([Z]); strings are [string]; JS arrays are lists. *)

From Stdlib Require Import ZArith QArith Lia.
From stdpp Require Import base list strings.

Open Scope Z_scope.
Open Scope string_scope.
Open Scope list_scope.

(** ** Wire data (what [response.json()] yields) *)

(** [mode] takes the values of the two radio inputs. *)
Inductive Mode := interactive | radial.

Definition Mode_eqb (a b : Mode) : bool :=
  match a, b with
  | interactive, interactive | radial, radial => true
  | _, _ => false
  end.

(** Node wire shape: [{id, label, type, size, expandable, expanded, root}]. *)
Record RenderNode := {
  id : string;
  label : string;
  type : string;
  size : Q;
  expandable : bool;
  expanded : bool;
  root : bool
}.

(** Edge wire shape: [{source, target, color, relationship_sub_type}]. *)
Record RenderEdge := {
  source : string;
  target : string;
  color : string;
  relationship_sub_type : string
}.

Record GraphData := {
  nodes : list RenderNode;
  links : list RenderEdge
}.

Record Stats := {
  node_count : Z;
  edge_count : Z;
  density : Q
}.

(** The result of an awaited [fetch(...)] followed by [response.json()]:
    one of the two promises rejects with an [Error] (its [message] is
    kept), or the parsed body is delivered.  [Resolved] is an answer
    whose body has the fields the handler reads; an answer that resolves
    with another body is an [ErrorAnswer], further down. *)
Inductive Outcome (A : Type) :=
| Rejected (message : string)
| Resolved (body : A).
Arguments Rejected {A} message.
Arguments Resolved {A} body.

(** The requests the component sends. *)
Inductive Request :=
| PostUpload
| GetStats
| PostInteractive (entity : string) (expanded_nodes : list string)
| PostRadial (entity : string) (depth : Z).

(** ** The d3 scene built by the [graphData] effect *)

(** A coordinate held by a simulation node.  d3 seeds the [i]-th node of a
    fresh simulation on a phyllotaxis spiral, a floating-point function of
    [i] alone: [Seed a i] stands for that value on axis [a].  [Val q] is a
    value that came from a pointer event or from a simulation step. *)
Inductive Axis := AxisX | AxisY.

Inductive Coord :=
| Seed (a : Axis) (i : nat)
| Val (q : Q).

(** A simulation node: the parsed node object after [d3.forceSimulation]
    has added [index], [x], [y] to it; [fx]/[fy] are [null] ([None]) unless
    a drag handler has set them. *)
Module LayoutNode.
Record t := {
  datum : RenderNode;
  index : nat;
  x : Coord;
  y : Coord;
  fx : option Coord;
  fy : option Coord
}.

Definition set_fx (v : option Coord) (d : t) : t :=
  {| datum := datum d; index := index d; x := x d; y := y d;
     fx := v; fy := fy d |}.

Definition set_fy (v : option Coord) (d : t) : t :=
  {| datum := datum d; index := index d; x := x d; y := y d;
     fx := fx d; fy := v |}.

Definition set_xy (vx vy : Coord) (d : t) : t :=
  {| datum := datum d; index := index d; x := vx; y := vy;
     fx := fx d; fy := fy d |}.
End LayoutNode.

(** [const width = 1000; const height = 700]. *)
Definition width : Q := 1000.
Definition height : Q := 700.

(** The simulation object: its nodes and links, the configured forces
    ([link.distance], [charge.strength], [center], [collision.radius]), the
    alpha target and the number of [restart()] calls received. *)
Record Simulation := {
  sim_nodes : list LayoutNode.t;
  sim_links : list RenderEdge;
  link_distance : Q;
  charge_strength : Q;
  center : Q * Q;
  collision_radius : LayoutNode.t -> Q;
  alphaTarget : Q;
  restarts : nat
}.

Definition set_sim_nodes (l : list LayoutNode.t) (s : Simulation) : Simulation :=
  {| sim_nodes := l; sim_links := sim_links s;
     link_distance := link_distance s; charge_strength := charge_strength s;
     center := center s; collision_radius := collision_radius s;
     alphaTarget := alphaTarget s; restarts := restarts s |}.

(** [simulation.alphaTarget(a)]. *)
Definition set_alphaTarget (a : Q) (s : Simulation) : Simulation :=
  {| sim_nodes := sim_nodes s; sim_links := sim_links s;
     link_distance := link_distance s; charge_strength := charge_strength s;
     center := center s; collision_radius := collision_radius s;
     alphaTarget := a; restarts := restarts s |}.

(** [simulation.restart()]. *)
Definition restart (s : Simulation) : Simulation :=
  {| sim_nodes := sim_nodes s; sim_links := sim_links s;
     link_distance := link_distance s; charge_strength := charge_strength s;
     center := center s; collision_radius := collision_radius s;
     alphaTarget := alphaTarget s; restarts := S (restarts s) |}.

(** d3's node initialisation on the parsed objects, which carry neither
    [x]/[y] nor [fx]/[fy]: the [i]-th node is put on its seed. *)
Definition initializeNodes (ns : list RenderNode) : list LayoutNode.t :=
  imap (fun i n =>
          {| LayoutNode.datum := n; LayoutNode.index := i;
             LayoutNode.x := Seed AxisX i; LayoutNode.y := Seed AxisY i;
             LayoutNode.fx := None; LayoutNode.fy := None |}) ns.

(** [d3.forceSimulation(graphData.nodes)
      .force('link', d3.forceLink(graphData.links).id(d => d.id).distance(150))
      .force('charge', d3.forceManyBody().strength(-500))
      .force('center', d3.forceCenter(width / 2, height / 2))
      .force('collision', d3.forceCollide().radius(40))] *)
Definition forceSimulation (g : GraphData) : Simulation :=
  {| sim_nodes := initializeNodes (nodes g);
     sim_links := links g;
     link_distance := 150;
     charge_strength := -500;
     center := (width / 2, height / 2)%Q;
     collision_radius := fun _ => 40%Q;
     alphaTarget := 0;
     restarts := 0 |}.

(** [nodeG.append('circle').attr('r', d.size)], in both branches. *)
Definition circle_r (d : LayoutNode.t) : Q := size (LayoutNode.datum d).

(** What one run of the [graphData] effect leaves behind: the simulation,
    the value of [mode] its closures captured, and the drag gestures of
    its [d3.drag()] behaviour that are in progress (by node index). *)
Record Scene := {
  captured_mode : Mode;
  simulation : Simulation;
  gestures : list nat
}.

Definition set_simulation (s : Simulation) (sc : Scene) : Scene :=
  {| captured_mode := captured_mode sc; simulation := s;
     gestures := gestures sc |}.

Definition set_gestures (l : list nat) (sc : Scene) : Scene :=
  {| captured_mode := captured_mode sc; simulation := simulation sc;
     gestures := l |}.

(** Mutation of the node object [d] bound to the [i]-th element. *)
Definition update_node (i : nat) (f : LayoutNode.t -> LayoutNode.t)
    (s : Simulation) : Simulation :=
  match sim_nodes s !! i with
  | Some d => set_sim_nodes (<[i := f d]> (sim_nodes s)) s
  | None => s
  end.

(** [function dragstarted(event, d)
       if (!event.active) simulation.alphaTarget(0.3).restart();
       d.fx = d.x; d.fy = d.y;] *)
Definition dragstarted (active : nat) (i : nat) (s : Simulation) : Simulation :=
  let s1 := if Nat.eqb active 0 then restart (set_alphaTarget (3 # 10) s) else s in
  update_node i (fun d => LayoutNode.set_fy (Some (LayoutNode.y d))
                            (LayoutNode.set_fx (Some (LayoutNode.x d)) d)) s1.

(** [function dragged(event, d) d.fx = event.x; d.fy = event.y;] *)
Definition dragged (ex ey : Q) (i : nat) (s : Simulation) : Simulation :=
  update_node i (fun d => LayoutNode.set_fy (Some (Val ey))
                            (LayoutNode.set_fx (Some (Val ex)) d)) s.

(** [function dragended(event, d)
       if (!event.active) simulation.alphaTarget(0);
       d.fx = null; d.fy = null;] *)
Definition dragended (active : nat) (i : nat) (s : Simulation) : Simulation :=
  let s1 := if Nat.eqb active 0 then set_alphaTarget 0 s else s in
  update_node i (fun d => LayoutNode.set_fy None (LayoutNode.set_fx None d)) s1.

(** ** d3 around the handlers *)

(** d3-drag hands [event.active] to the listeners: the number of gestures
    of the behaviour in progress, not counting the one that starts or
    ends.  A gesture starts on an element of the scene. *)
Definition drag_start (i : nat) (sc : Scene) : Scene :=
  match sim_nodes (simulation sc) !! i with
  | None => sc
  | Some _ =>
      set_gestures (i :: gestures sc)
        (set_simulation
           (dragstarted (length (gestures sc)) i (simulation sc)) sc)
  end.

Definition drag_move (i : nat) (ex ey : Q) (sc : Scene) : Scene :=
  if bool_decide (i ∈ gestures sc)
  then set_simulation (dragged ex ey i (simulation sc)) sc
  else sc.

Fixpoint remove_first (i : nat) (l : list nat) : list nat :=
  match l with
  | [] => []
  | j :: l' => if Nat.eqb i j then l' else j :: remove_first i l'
  end.

Definition drag_end (i : nat) (sc : Scene) : Scene :=
  if bool_decide (i ∈ gestures sc)
  then
    let rest := remove_first i (gestures sc) in
    set_gestures rest
      (set_simulation (dragended (length rest) i (simulation sc)) sc)
  else sc.

(** One step of the simulation.  The forces are d3's and floating point:
    [phys] gives where the step leaves each free node (by index); a node
    with [fx] (or [fy]) set is put on it, as d3 does. *)
Definition tick (phys : nat -> Q * Q) (s : Simulation) : Simulation :=
  set_sim_nodes
    (map (fun d =>
            LayoutNode.set_xy
              (match LayoutNode.fx d with
               | Some c => c
               | None => Val (fst (phys (LayoutNode.index d)))
               end)
              (match LayoutNode.fy d with
               | Some c => c
               | None => Val (snd (phys (LayoutNode.index d)))
               end) d)
         (sim_nodes s)) s.

(** ** Component state *)

#[global] Instance Mode_eq_dec : EqDecision Mode.
Proof. solve_decision. Defined.

(** The eight [useState] hooks, then what React and the page hold besides:
    the identities of the array and object values (a dependency array is
    compared with [Object.is]), the dependency values of the last run of
    each effect, the scene in the [svg], the messages shown with [alert],
    the requests sent and the fetches still awaited. *)
Record AppState := {
  entities : list string;
  selectedEntity : string;
  expandedNodes : list string;
  graphData : option GraphData;
  stats : option Stats;
  mode : Mode;
  depth : Z;
  uploading : bool;
  expandedNodes_ref : nat;
  graphData_ref : nat;
  fresh_ref : nat;
  deps_selected : string;
  deps_load : string * nat * Mode * Z;
  deps_graph : nat;
  scene : option Scene;
  alerts : list string;
  requests : list Request;
  awaiting_stats : bool;
  pending_graph : nat
}.

Definition setEntities (v : list string) (st : AppState) : AppState :=
  {| entities := v; selectedEntity := selectedEntity st;
     expandedNodes := expandedNodes st; graphData := graphData st;
     stats := stats st; mode := mode st; depth := depth st;
     uploading := uploading st; expandedNodes_ref := expandedNodes_ref st;
     graphData_ref := graphData_ref st; fresh_ref := fresh_ref st;
     deps_selected := deps_selected st; deps_load := deps_load st;
     deps_graph := deps_graph st; scene := scene st; alerts := alerts st;
     requests := requests st; awaiting_stats := awaiting_stats st;
     pending_graph := pending_graph st |}.

Definition setSelectedEntity (v : string) (st : AppState) : AppState :=
  {| entities := entities st; selectedEntity := v;
     expandedNodes := expandedNodes st; graphData := graphData st;
     stats := stats st; mode := mode st; depth := depth st;
     uploading := uploading st; expandedNodes_ref := expandedNodes_ref st;
     graphData_ref := graphData_ref st; fresh_ref := fresh_ref st;
     deps_selected := deps_selected st; deps_load := deps_load st;
     deps_graph := deps_graph st; scene := scene st; alerts := alerts st;
     requests := requests st; awaiting_stats := awaiting_stats st;
     pending_graph := pending_graph st |}.

(** [setExpandedNodes] is always given a new array. *)
Definition setExpandedNodes (v : list string) (st : AppState) : AppState :=
  {| entities := entities st; selectedEntity := selectedEntity st;
     expandedNodes := v; graphData := graphData st;
     stats := stats st; mode := mode st; depth := depth st;
     uploading := uploading st; expandedNodes_ref := fresh_ref st;
     graphData_ref := graphData_ref st; fresh_ref := S (fresh_ref st);
     deps_selected := deps_selected st; deps_load := deps_load st;
     deps_graph := deps_graph st; scene := scene st; alerts := alerts st;
     requests := requests st; awaiting_stats := awaiting_stats st;
     pending_graph := pending_graph st |}.

(** [setGraphData(data)]: [data] is the object just parsed. *)
Definition setGraphData (v : GraphData) (st : AppState) : AppState :=
  {| entities := entities st; selectedEntity := selectedEntity st;
     expandedNodes := expandedNodes st; graphData := Some v;
     stats := stats st; mode := mode st; depth := depth st;
     uploading := uploading st; expandedNodes_ref := expandedNodes_ref st;
     graphData_ref := fresh_ref st; fresh_ref := S (fresh_ref st);
     deps_selected := deps_selected st; deps_load := deps_load st;
     deps_graph := deps_graph st; scene := scene st; alerts := alerts st;
     requests := requests st; awaiting_stats := awaiting_stats st;
     pending_graph := pending_graph st |}.

Definition setStats (v : Stats) (st : AppState) : AppState :=
  {| entities := entities st; selectedEntity := selectedEntity st;
     expandedNodes := expandedNodes st; graphData := graphData st;
     stats := Some v; mode := mode st; depth := depth st;
     uploading := uploading st; expandedNodes_ref := expandedNodes_ref st;
     graphData_ref := graphData_ref st; fresh_ref := fresh_ref st;
     deps_selected := deps_selected st; deps_load := deps_load st;
     deps_graph := deps_graph st; scene := scene st; alerts := alerts st;
     requests := requests st; awaiting_stats := awaiting_stats st;
     pending_graph := pending_graph st |}.

Definition setMode (v : Mode) (st : AppState) : AppState :=
  {| entities := entities st; selectedEntity := selectedEntity st;
     expandedNodes := expandedNodes st; graphData := graphData st;
     stats := stats st; mode := v; depth := depth st;
     uploading := uploading st; expandedNodes_ref := expandedNodes_ref st;
     graphData_ref := graphData_ref st; fresh_ref := fresh_ref st;
     deps_selected := deps_selected st; deps_load := deps_load st;
     deps_graph := deps_graph st; scene := scene st; alerts := alerts st;
     requests := requests st; awaiting_stats := awaiting_stats st;
     pending_graph := pending_graph st |}.

Definition setDepth (v : Z) (st : AppState) : AppState :=
  {| entities := entities st; selectedEntity := selectedEntity st;
     expandedNodes := expandedNodes st; graphData := graphData st;
     stats := stats st; mode := mode st; depth := v;
     uploading := uploading st; expandedNodes_ref := expandedNodes_ref st;
     graphData_ref := graphData_ref st; fresh_ref := fresh_ref st;
     deps_selected := deps_selected st; deps_load := deps_load st;
     deps_graph := deps_graph st; scene := scene st; alerts := alerts st;
     requests := requests st; awaiting_stats := awaiting_stats st;
     pending_graph := pending_graph st |}.

Definition setUploading (v : bool) (st : AppState) : AppState :=
  {| entities := entities st; selectedEntity := selectedEntity st;
     expandedNodes := expandedNodes st; graphData := graphData st;
     stats := stats st; mode := mode st; depth := depth st;
     uploading := v; expandedNodes_ref := expandedNodes_ref st;
     graphData_ref := graphData_ref st; fresh_ref := fresh_ref st;
     deps_selected := deps_selected st; deps_load := deps_load st;
     deps_graph := deps_graph st; scene := scene st; alerts := alerts st;
     requests := requests st; awaiting_stats := awaiting_stats st;
     pending_graph := pending_graph st |}.

(** The parts outside the hooks. *)
Definition set_scene (v : option Scene) (st : AppState) : AppState :=
  {| entities := entities st; selectedEntity := selectedEntity st;
     expandedNodes := expandedNodes st; graphData := graphData st;
     stats := stats st; mode := mode st; depth := depth st;
     uploading := uploading st; expandedNodes_ref := expandedNodes_ref st;
     graphData_ref := graphData_ref st; fresh_ref := fresh_ref st;
     deps_selected := deps_selected st; deps_load := deps_load st;
     deps_graph := deps_graph st; scene := v; alerts := alerts st;
     requests := requests st; awaiting_stats := awaiting_stats st;
     pending_graph := pending_graph st |}.

(** [alert(msg)]. *)
Definition alert (msg : string) (st : AppState) : AppState :=
  {| entities := entities st; selectedEntity := selectedEntity st;
     expandedNodes := expandedNodes st; graphData := graphData st;
     stats := stats st; mode := mode st; depth := depth st;
     uploading := uploading st; expandedNodes_ref := expandedNodes_ref st;
     graphData_ref := graphData_ref st; fresh_ref := fresh_ref st;
     deps_selected := deps_selected st; deps_load := deps_load st;
     deps_graph := deps_graph st; scene := scene st;
     alerts := alerts st ++ [msg];
     requests := requests st; awaiting_stats := awaiting_stats st;
     pending_graph := pending_graph st |}.

(** [fetch(...)]: the request leaves; [stage] and [graph] say which
    answers are now awaited. *)
Definition send (r : Request) (stage : bool) (graph : nat) (st : AppState)
    : AppState :=
  {| entities := entities st; selectedEntity := selectedEntity st;
     expandedNodes := expandedNodes st; graphData := graphData st;
     stats := stats st; mode := mode st; depth := depth st;
     uploading := uploading st; expandedNodes_ref := expandedNodes_ref st;
     graphData_ref := graphData_ref st; fresh_ref := fresh_ref st;
     deps_selected := deps_selected st; deps_load := deps_load st;
     deps_graph := deps_graph st; scene := scene st; alerts := alerts st;
     requests := requests st ++ [r]; awaiting_stats := stage;
     pending_graph := graph |}.

(** An awaited graph answer has arrived. *)
Definition received_graph (st : AppState) : AppState :=
  {| entities := entities st; selectedEntity := selectedEntity st;
     expandedNodes := expandedNodes st; graphData := graphData st;
     stats := stats st; mode := mode st; depth := depth st;
     uploading := uploading st; expandedNodes_ref := expandedNodes_ref st;
     graphData_ref := graphData_ref st; fresh_ref := fresh_ref st;
     deps_selected := deps_selected st; deps_load := deps_load st;
     deps_graph := deps_graph st; scene := scene st; alerts := alerts st;
     requests := requests st; awaiting_stats := awaiting_stats st;
     pending_graph := Nat.pred (pending_graph st) |}.

(** The dependency values of the current render. *)
Definition load_deps (st : AppState) : string * nat * Mode * Z :=
  (selectedEntity st, expandedNodes_ref st, mode st, depth st).

Definition record_deps (st : AppState) : AppState :=
  {| entities := entities st; selectedEntity := selectedEntity st;
     expandedNodes := expandedNodes st; graphData := graphData st;
     stats := stats st; mode := mode st; depth := depth st;
     uploading := uploading st; expandedNodes_ref := expandedNodes_ref st;
     graphData_ref := graphData_ref st; fresh_ref := fresh_ref st;
     deps_selected := selectedEntity st; deps_load := load_deps st;
     deps_graph := graphData_ref st; scene := scene st; alerts := alerts st;
     requests := requests st; awaiting_stats := awaiting_stats st;
     pending_graph := pending_graph st |}.

(** The component after mounting: every effect has run once and returned
    early ([selectedEntity] is empty, [graphData] is [null]). *)
Definition init : AppState :=
  {| entities := []; selectedEntity := ""; expandedNodes := [];
     graphData := None; stats := None; mode := interactive; depth := 2;
     uploading := false; expandedNodes_ref := 0; graphData_ref := 0;
     fresh_ref := 1; deps_selected := "";
     deps_load := ("", 0%nat, interactive, 2); deps_graph := 0;
     scene := None; alerts := []; requests := []; awaiting_stats := false;
     pending_graph := 0 |}.

(** ** Handlers and effects of [GraphExplorer] *)

(** [uploadFile], up to its first [await]:
    [setUploading(true); ... fetch(`${API_BASE}/upload`, ...)]. *)
Definition uploadFile (st : AppState) : AppState :=
  send PostUpload false (pending_graph st) (setUploading true st).

(** [uploadFile] once the upload has been answered:
    [setEntities(data.entities); ... fetch(`${API_BASE}/stats`)], or the
    [catch] and [finally] blocks. *)
Definition uploadFile_uploaded (o : Outcome (list string)) (st : AppState)
    : AppState :=
  match o with
  | Resolved data_entities =>
      send GetStats true (pending_graph st) (setEntities data_entities st)
  | Rejected message =>
      setUploading false (alert ("Error uploading file: " +:+ message) st)
  end.

(** [uploadFile] once the statistics have been answered:
    [setStats(statsData)], or the [catch] block; then [finally]. *)
Definition uploadFile_stats (o : Outcome Stats) (st : AppState) : AppState :=
  match o with
  | Resolved statsData => setUploading false (setStats statsData st)
  | Rejected message =>
      setUploading false (alert ("Error uploading file: " +:+ message) st)
  end.

(** [loadGraph], up to its [await]:
    [if (!selectedEntity) return;] then one of the two [fetch] calls, with
    the [selectedEntity], [expandedNodes], [mode] and [depth] of the render
    that created this closure. *)
Definition loadGraph (st : AppState) : AppState :=
  if bool_decide (selectedEntity st = "") then st
  else
    match mode st with
    | interactive =>
        send (PostInteractive (selectedEntity st) (expandedNodes st))
          (awaiting_stats st) (S (pending_graph st)) st
    | radial =>
        send (PostRadial (selectedEntity st) (depth st))
          (awaiting_stats st) (S (pending_graph st)) st
    end.

(** [loadGraph] once answered: [setGraphData(data)], or the [catch] block
    [alert('Error loading graph: ' + error.message)]. *)
Definition loadGraph_answered (o : Outcome GraphData) (st : AppState)
    : AppState :=
  match o with
  | Resolved data => setGraphData data st
  | Rejected message => alert ("Error loading graph: " +:+ message) st
  end.

(** The [svg] element is part of the render only in the last branch of
    the JSX: entities are loaded, an entity is selected and [graphData]
    is not [null]. *)
Definition svg_rendered (st : AppState) : bool :=
  negb (bool_decide (entities st = []))
  && negb (bool_decide (selectedEntity st = ""))
  && bool_decide (is_Some (graphData st)).

(** The effect on [[graphData]]:
    [if (!graphData || !svgRef.current) return;] otherwise the [svg] is
    emptied and a scene is built from [graphData], its listeners closing
    over the [mode] of this render. *)
Definition graphEffect (st : AppState) : AppState :=
  match graphData st with
  | None => st
  | Some g =>
      if svg_rendered st
      then set_scene (Some {| captured_mode := mode st;
                              simulation := forceSimulation g;
                              gestures := [] |}) st
      else st
  end.

(** The listener [node.on('click', (event, d) => ...)] of a scene, on its
    [i]-th node:
    [if (d.expandable && mode === 'interactive')
       setExpandedNodes(prev => [...prev, d.id]);] *)
Definition click (sc : Scene) (i : nat) (st : AppState) : AppState :=
  match sim_nodes (simulation sc) !! i with
  | None => st
  | Some d =>
      if expandable (LayoutNode.datum d)
         && Mode_eqb (captured_mode sc) interactive
      then setExpandedNodes (expandedNodes st ++ [id (LayoutNode.datum d)]) st
      else st
  end.

(** [handleReset]:
    [if (selectedEntity) setExpandedNodes([selectedEntity]);] *)
Definition handleReset (st : AppState) : AppState :=
  if bool_decide (selectedEntity st = "") then st
  else setExpandedNodes [selectedEntity st] st.

(** [<input type="range" min="1" max="5" value={depth}
       onChange={(e) => setDepth(parseInt(e.target.value))} />]:
    the browser keeps the value of a range control within its bounds, and
    [parseInt] reads that integer back from its decimal string. *)
Definition range_value (min max raw : Z) : Z := Z.max min (Z.min max raw).

(** ** React: commits and effects *)

(** One commit of a render.  The [svg] (with the scene inside) leaves the
    page when the render does not contain it.  Then the effects whose
    dependencies changed since their last run are run, in order, all on
    the values of this render:
    - [[selectedEntity]]: [if (selectedEntity) setExpandedNodes([selectedEntity])],
      a state update that React applies after the effects, returned here;
    - [[selectedEntity, expandedNodes, mode, depth]]: [loadGraph()];
    - [[graphData]]: the scene. *)
Definition commit (st : AppState) : AppState * option (list string) :=
  let st0 := if svg_rendered st then st else set_scene None st in
  let update :=
    if bool_decide (deps_selected st = selectedEntity st) then None
    else if bool_decide (selectedEntity st = "") then None
         else Some [selectedEntity st] in
  let st1 :=
    if bool_decide (deps_load st = load_deps st) then st0 else loadGraph st0 in
  let st2 :=
    if bool_decide (deps_graph st = graphData_ref st) then st1
    else graphEffect st1 in
  (record_deps st2, update).

(** The renders an update leads to, until no effect asks for another. *)
Definition settle (st : AppState) : AppState :=
  match commit st with
  | (st1, None) => st1
  | (st1, Some l) => (commit (setExpandedNodes l st1)).1
  end.

(** ** Events *)

Inductive Event :=
| FileChosen
| UploadAnswered (o : Outcome (list string))
| StatsAnswered (o : Outcome Stats)
| EntitySelected (e : string)
| ModeChosen (m : Mode)
| DepthMoved (raw : Z)
| ResetClicked
| GraphAnswered (o : Outcome GraphData)
| NodeClicked (i : nat)
| DragStart (i : nat)
| DragMove (i : nat) (ex ey : Q)
| DragEnd (i : nat)
| Tick (phys : nat -> Q * Q).

Definition on_scene (f : Scene -> Scene) (st : AppState) : AppState :=
  match scene st with
  | Some sc => set_scene (Some (f sc)) st
  | None => st
  end.

(** What an event does before React renders again.  A control that is not
    on the page, or is disabled, cannot fire; an answer comes only to a
    request that is awaited. *)
Definition handle (ev : Event) (st : AppState) : AppState :=
  match ev with
  | FileChosen =>
      if uploading st then st else uploadFile st
  | UploadAnswered o =>
      if uploading st && negb (awaiting_stats st)
      then uploadFile_uploaded o st else st
  | StatsAnswered o =>
      if uploading st && awaiting_stats st
      then uploadFile_stats o st else st
  | EntitySelected e =>
      if negb (bool_decide (entities st = []))
         && bool_decide (e = "" ∨ e ∈ entities st)
      then setSelectedEntity e st else st
  | ModeChosen m =>
      if negb (bool_decide (entities st = [])) then setMode m st else st
  | DepthMoved raw =>
      if negb (bool_decide (entities st = [])) && Mode_eqb (mode st) radial
      then setDepth (range_value 1 5 raw) st else st
  | ResetClicked =>
      if negb (bool_decide (entities st = []))
         && Mode_eqb (mode st) interactive
         && negb (bool_decide (selectedEntity st = ""))
      then handleReset st else st
  | GraphAnswered o =>
      match pending_graph st with
      | O => st
      | S _ => loadGraph_answered o (received_graph st)
      end
  | NodeClicked i =>
      match scene st with
      | Some sc => click sc i st
      | None => st
      end
  | DragStart i => on_scene (drag_start i) st
  | DragMove i ex ey => on_scene (drag_move i ex ey) st
  | DragEnd i => on_scene (drag_end i) st
  | Tick phys =>
      on_scene (fun sc => set_simulation (tick phys (simulation sc)) sc) st
  end.

(** An event, then the renders it causes. *)
Definition step (ev : Event) (st : AppState) : AppState :=
  settle (handle ev st).

Definition run (evs : list Event) (st : AppState) : AppState :=
  fold_left (fun s ev => step ev s) evs st.

(** The render committed right after the handler of an event, before the
    state updates made by its effects are applied. *)
Definition first_render (ev : Event) (st : AppState) : AppState :=
  (commit (handle ev st)).1.

(** ** Vocabulary of the properties *)

(** No effect is waiting to run, and the identities in use are older than
    the next fresh one. *)
Record quiescent (st : AppState) : Prop := {
  q_selected : deps_selected st = selectedEntity st;
  q_load : deps_load st = load_deps st;
  q_graph : deps_graph st = graphData_ref st;
  q_fresh_expanded : (expandedNodes_ref st < fresh_ref st)%nat;
  q_fresh_graph : (graphData_ref st < fresh_ref st)%nat
}.

(** The events whose handler or effect calls [setExpandedNodes]. *)
Definition writes_expandedNodes (ev : Event) : bool :=
  match ev with
  | EntitySelected _ | NodeClicked _ | ResetClicked => true
  | _ => false
  end.

(** The root of the session is expanded. *)
Definition root_expanded (st : AppState) : Prop :=
  selectedEntity st ≠ "" → selectedEntity st ∈ expandedNodes st.

(** The depth in the state and in the radial queries sent. *)
Record radial_bounded (st : AppState) : Prop := {
  rb_depth : (1 ≤ depth st ≤ 5)%Z;
  rb_requests : ∀ e d, PostRadial e d ∈ requests st → (1 ≤ d ≤ 5)%Z
}.

(** While a gesture is in progress the alpha target is kept at 0.3; the
    collision force keeps the radius it was built with. *)
Record scene_ok (sc : Scene) : Prop := {
  so_heated : gestures sc ≠ [] → alphaTarget (simulation sc) = 3 # 10;
  so_collision : ∀ d, collision_radius (simulation sc) d = 40%Q
}.

(** The scene is on the page only while the [svg] is, and is sound. *)
Definition page_ok (st : AppState) : Prop :=
  ∀ sc, scene st = Some sc → svg_rendered st = true ∧ scene_ok sc.

(** The query [loadGraph] sends from a render. *)
Definition query (st : AppState) : Request :=
  match mode st with
  | interactive => PostInteractive (selectedEntity st) (expandedNodes st)
  | radial => PostRadial (selectedEntity st) (depth st)
  end.

(** Where the scene holds the node called [name], if it does. *)
Definition position_of (name : string) (st : AppState)
    : option (Coord * Coord) :=
  match scene st with
  | None => None
  | Some sc =>
      match find (fun d => String.eqb (id (LayoutNode.datum d)) name)
              (sim_nodes (simulation sc)) with
      | Some d => Some (LayoutNode.x d, LayoutNode.y d)
      | None => None
      end
  end.

(** ** A session on the example store

    [Alice -> Acme], [Acme -> Bob], [Bob -> Acme], all of type employee. *)

Definition node (name kind : string) (sz : Q) (can_expand is_expanded is_root : bool)
    : RenderNode :=
  {| id := name; label := name; type := kind; size := sz;
     expandable := can_expand; expanded := is_expanded; root := is_root |}.

Definition edge (a b : string) : RenderEdge :=
  {| source := a; target := b; color := "#e11d48";
     relationship_sub_type := "employee" |}.

(** The answer to [{entity: "Alice", expanded_nodes: []}]: the root alone. *)
Definition graph_root : GraphData :=
  {| nodes := [node "Alice" "person" 30 true false true]; links := [] |}.

(** The answer to [{entity: "Alice", expanded_nodes: ["Alice"]}]. *)
Definition graph_alice : GraphData :=
  {| nodes := [node "Alice" "person" 30 false true true;
               node "Acme" "company" 20 true false false];
     links := [edge "Alice" "Acme"] |}.

(** The answer to [{entity: "Alice", expanded_nodes: ["Alice", "Acme"]}]. *)
Definition graph_acme : GraphData :=
  {| nodes := [node "Alice" "person" 30 false true true;
               node "Acme" "company" 20 false true false;
               node "Bob" "person" 20 true false false];
     links := [edge "Alice" "Acme"; edge "Acme" "Bob"; edge "Bob" "Acme"] |}.

Definition stats_example : Stats :=
  {| node_count := 3; edge_count := 3; density := 1 # 2 |}.

(** Upload, then select Alice.  The selection sends two queries, one from
    the render that still has the empty Expansion State and one from the
    render that follows the effect's update; they are answered in order. *)
Definition session_alice : list Event :=
  [FileChosen;
   UploadAnswered (Resolved ["Alice"; "Acme"; "Bob"]);
   StatsAnswered (Resolved stats_example);
   EntitySelected "Alice";
   GraphAnswered (Resolved graph_root);
   GraphAnswered (Resolved graph_alice)].

Definition at_alice : AppState := run session_alice init.

(** The scene of a state, for the examples. *)
Definition scene_of (st : AppState) : Scene :=
  default {| captured_mode := interactive;
             simulation := forceSimulation {| nodes := []; links := [] |};
             gestures := [] |} (scene st).

Definition node_at (i : nat) (st : AppState) : LayoutNode.t :=
  default {| LayoutNode.datum := node "" "" 0 false false false;
             LayoutNode.index := i;
             LayoutNode.x := Seed AxisX i; LayoutNode.y := Seed AxisY i;
             LayoutNode.fx := None; LayoutNode.fy := None |}
    (sim_nodes (simulation (scene_of st)) !! i).

(** A simulation step that has moved Alice to (300, 200) and Acme to
    (420, 260). *)
Definition drift (i : nat) : Q * Q :=
  match i with
  | O => (300, 200)%Q
  | _ => (420, 260)%Q
  end.

(** ** Vocabulary of the further properties *)

(** A query names an entity. *)
Definition names_entity (r : Request) : Prop :=
  match r with
  | PostInteractive e _ | PostRadial e _ => e ≠ ""
  | _ => True
  end.

(** The root of the session is the first element of Expansion State. *)
Definition root_first (st : AppState) : Prop :=
  selectedEntity st ≠ "" → head (expandedNodes st) = Some (selectedEntity st).

(** What the listeners and the simulation do to a scene. *)
Inductive scene_moved (sc : Scene) : Scene → Prop :=
| moved_not : scene_moved sc sc
| moved_start (i : nat) : scene_moved sc (drag_start i sc)
| moved_move (i : nat) (ex ey : Q) : scene_moved sc (drag_move i ex ey sc)
| moved_end (i : nat) : scene_moved sc (drag_end i sc)
| moved_tick (phys : nat → Q * Q) :
    scene_moved sc (set_simulation (tick phys (simulation sc)) sc).

(** The scene the [graphData] effect builds. *)
Definition fresh_scene (m : Mode) (g : GraphData) : Scene :=
  {| captured_mode := m; simulation := forceSimulation g; gestures := [] |}.

(** The scene draws the result [g]: its nodes are those of [g], in order,
    and so are its links. *)
Definition draws (g : GraphData) (sc : Scene) : Prop :=
  map LayoutNode.datum (sim_nodes (simulation sc)) = nodes g ∧
  map LayoutNode.index (sim_nodes (simulation sc))
  = seq 0 (length (nodes g)) ∧
  sim_links (simulation sc) = links g.

(** Nothing is being dragged: no node is pinned and the alpha target is
    back to 0. *)
Definition at_rest (sc : Scene) : Prop :=
  alphaTarget (simulation sc) = 0%Q ∧
  ∀ i d, sim_nodes (simulation sc) !! i = Some d →
         LayoutNode.fx d = None ∧ LayoutNode.fy d = None.

(** A pinned node has a gesture in progress, and without gestures the
    alpha target is 0. *)
Definition pins_held (sc : Scene) : Prop :=
  (gestures sc = [] → alphaTarget (simulation sc) = 0%Q) ∧
  ∀ i d, sim_nodes (simulation sc) !! i = Some d →
         is_Some (LayoutNode.fx d) ∨ is_Some (LayoutNode.fy d) →
         i ∈ gestures sc.

(** The answers that report a failure. *)
Definition is_rejection (ev : Event) : bool :=
  match ev with
  | UploadAnswered (Rejected _) | StatsAnswered (Rejected _)
  | GraphAnswered (Rejected _) => true
  | _ => false
  end.

Fixpoint rejections (evs : list Event) : nat :=
  match evs with
  | [] => 0
  | ev :: evs' => (if is_rejection ev then 1 else 0) + rejections evs'
  end.

(** The events of an upload. *)
Definition of_upload (ev : Event) : bool :=
  match ev with
  | FileChosen | UploadAnswered _ | StatsAnswered _ => true
  | _ => false
  end.

(** What a node of the scene shows to the pointer.

    [.style('cursor', d => d.expandable ? 'pointer' : 'default')] *)
Definition cursor (d : LayoutNode.t) : string :=
  if expandable (LayoutNode.datum d) then "pointer" else "default".

Definition newline : string :=
  String (Ascii.ascii_of_nat 10) EmptyString.

(** The text [`${d.label} (${d.type})`]. *)
Definition caption (d : LayoutNode.t) : string :=
  label (LayoutNode.datum d) +:+ " (" +:+ type (LayoutNode.datum d) +:+ ")".

(** [node.append('title').text(d => ...)]: the tooltip. *)
Definition title (d : LayoutNode.t) : string :=
  if expandable (LayoutNode.datum d)
  then caption d +:+ newline +:+ "👆 Click to expand"
  else if expanded (LayoutNode.datum d)
       then caption d +:+ newline +:+ "✓ Expanded"
       else caption d.

(** ** Answers with an error body

    [fetch] does not reject on an HTTP error status, and neither
    [uploadFile] nor [loadGraph] tests [response.ok]: the body of such an
    answer, [{detail: ...}], is parsed and used like any other.  It has
    none of the fields the handlers read. *)
Inductive ErrorAnswer := UploadErrorBody | StatsErrorBody | GraphErrorBody.

(** The expression of the JSX at which a render throws. *)
Inductive Thrown :=
| entities_length          (* [entities.length], [entities] is [undefined] *)
| stats_density_toFixed.   (* [stats.density.toFixed(4)], no [density] *)

(** The page after such an answer.  When a render throws, React removes
    the component: its hooks are gone, the alerts shown and the requests
    sent remain.  In [Garbled st] the component is mounted with the hooks
    of [st], except that [graphData] holds the error body (it is truthy
    and has neither [nodes] nor [links]); when the [svg] is on the page
    the [graphData] effect has emptied it and handed these to d3. *)
Inductive Page :=
| Mounted (st : AppState)
| Garbled (st : AppState)
| Unmounted (why : Thrown) (shown : list string) (sent : list Request).

(** The handlers on an answer with an error body, when it is awaited:
    - [uploadFile]: [setEntities(data.entities)] stores [undefined], the
      statistics are requested, and the render that follows throws;
    - [uploadFile], statistics: [setStats(statsData)] stores the body,
      [finally] runs, and the render of the statistics panel throws;
    - [loadGraph]: [setGraphData(data)] stores the body.
    No [catch] block runs. *)
Definition answered_with_error (a : ErrorAnswer) (st : AppState) : Page :=
  match a with
  | UploadErrorBody =>
      if uploading st && negb (awaiting_stats st)
      then Unmounted entities_length (alerts st) (requests st ++ [GetStats])
      else Mounted st
  | StatsErrorBody =>
      if uploading st && awaiting_stats st
      then Unmounted stats_density_toFixed (alerts st) (requests st)
      else Mounted st
  | GraphErrorBody =>
      match pending_graph st with
      | O => Mounted st
      | S _ => Garbled (received_graph st)
      end
  end.

(** The alerts that have been shown on a page. *)
Definition shown_on (p : Page) : list string :=
  match p with
  | Mounted st | Garbled st => alerts st
  | Unmounted _ shown _ => shown
  end.

(** The text of the alert a rejected answer is reported with. *)
Definition alert_text (ev : Event) : option string :=
  match ev with
  | UploadAnswered (Rejected message) | StatsAnswered (Rejected message) =>
      Some ("Error uploading file: " +:+ message)
  | GraphAnswered (Rejected message) =>
      Some ("Error loading graph: " +:+ message)
  | _ => None
  end.

(** * Properties *)

(** ** Runs and invariants *)

Lemma run_app (evs1 evs2 : list Event) (st : AppState) :
  run (evs1 ++ evs2) st = run evs2 (run evs1 st).
Proof. unfold run. apply fold_left_app. Qed.

Lemma run_invariant (P : AppState → Prop) :
  (∀ ev st, P st → P (step ev st)) →
  ∀ evs st, P st → P (run evs st).
Proof.
  intros Hstep evs.
  induction evs as [|ev evs IH]; intros st HP; simpl; auto.
Qed.

(** Case analysis on the tests of the handlers and effects. *)
Ltac split_tests :=
  repeat (case_bool_decide || case_match); simplify_eq/=; auto.

Ltac open_commit :=
  unfold commit, loadGraph, graphEffect, load_deps.

Ltac open_handle :=
  unfold handle, on_scene, click, handleReset, uploadFile,
    uploadFile_uploaded, uploadFile_stats, loadGraph_answered.

(** *** What a commit leaves alone *)

(** The hooks other than [expandedNodes] are written by handlers only. *)
Lemma commit_hooks (st : AppState) :
  let st' := (commit st).1 in
  entities st' = entities st ∧ selectedEntity st' = selectedEntity st ∧
  expandedNodes st' = expandedNodes st ∧ graphData st' = graphData st ∧
  stats st' = stats st ∧ mode st' = mode st ∧ depth st' = depth st ∧
  uploading st' = uploading st.
Proof. open_commit. split_tests; repeat split; auto. Qed.

Lemma commit_page (st : AppState) :
  let st' := (commit st).1 in
  alerts st' = alerts st ∧ awaiting_stats st' = awaiting_stats st ∧
  expandedNodes_ref st' = expandedNodes_ref st ∧
  graphData_ref st' = graphData_ref st ∧ fresh_ref st' = fresh_ref st.
Proof. open_commit. split_tests; repeat split; auto. Qed.

Lemma commit_deps (st : AppState) :
  let st' := (commit st).1 in
  deps_selected st' = selectedEntity st' ∧ deps_load st' = load_deps st' ∧
  deps_graph st' = graphData_ref st'.
Proof. open_commit. split_tests. Qed.

(** The state update asked for by the [[selectedEntity]] effect. *)
Lemma commit_update (st : AppState) :
  (commit st).2 =
    if bool_decide (deps_selected st = selectedEntity st) then None
    else if bool_decide (selectedEntity st = "") then None
         else Some [selectedEntity st].
Proof. reflexivity. Qed.

(** *** Quiescence: no effect is waiting to run *)

Lemma quiescent_init : quiescent init.
Proof. split; simpl; auto; lia. Qed.

Lemma handle_fresh (ev : Event) (st : AppState) :
  (expandedNodes_ref st < fresh_ref st)%nat →
  (graphData_ref st < fresh_ref st)%nat →
  (expandedNodes_ref (handle ev st) < fresh_ref (handle ev st))%nat ∧
  (graphData_ref (handle ev st) < fresh_ref (handle ev st))%nat.
Proof. open_handle. destruct ev; split_tests; lia. Qed.

Lemma settle_quiescent (st : AppState) :
  (expandedNodes_ref st < fresh_ref st)%nat →
  (graphData_ref st < fresh_ref st)%nat →
  quiescent (settle st).
Proof.
  intros He Hg. unfold settle.
  pose proof (commit_page st) as (_ & _ & Hr1 & Hr2 & Hr3).
  pose proof (commit_deps st) as (D1 & D2 & D3).
  destruct (commit st) as [st1 [l|]]; cbn [fst] in *.
  - pose proof (commit_deps (setExpandedNodes l st1)) as (? & ? & ?).
    pose proof (commit_page (setExpandedNodes l st1)) as (_ & _ & E1 & E2 & E3).
    split; auto; rewrite ?E1, ?E2, ?E3; cbn; lia.
  - split; auto; lia.
Qed.

Lemma step_quiescent (ev : Event) (st : AppState) :
  quiescent st → quiescent (step ev st).
Proof.
  intros [_ _ _ He Hg]. unfold step.
  destruct (handle_fresh ev st He Hg). now apply settle_quiescent.
Qed.

Lemma run_quiescent (evs : list Event) : quiescent (run evs init).
Proof. apply run_invariant; [apply step_quiescent | apply quiescent_init]. Qed.

(** Once the effect on [[selectedEntity]] has nothing to do, settling is
    one commit and writes no hook. *)
Lemma settle_selected_unchanged (st : AppState) :
  deps_selected st = selectedEntity st → settle st = (commit st).1.
Proof.
  intros H. unfold settle.
  pose proof (commit_update st) as Hu.
  rewrite bool_decide_eq_true_2 in Hu by done.
  destruct (commit st) as [st1 u]; simpl in *. now subst u.
Qed.

(** *** Which events write which hook *)

Lemma handle_deps (ev : Event) (st : AppState) :
  deps_selected (handle ev st) = deps_selected st ∧
  deps_load (handle ev st) = deps_load st ∧
  deps_graph (handle ev st) = deps_graph st.
Proof. open_handle. destruct ev; split_tests. Qed.

(** Only the entity [select] writes [selectedEntity]. *)
Lemma handle_selectedEntity (ev : Event) (st : AppState) :
  selectedEntity (handle ev st) =
    match ev with
    | EntitySelected e =>
        if negb (bool_decide (entities st = []))
           && bool_decide (e = "" ∨ e ∈ entities st)
        then e else selectedEntity st
    | _ => selectedEntity st
    end.
Proof. open_handle. destruct ev; split_tests. Qed.

Lemma handle_expandedNodes_frame (ev : Event) (st : AppState) :
  writes_expandedNodes ev = false →
  expandedNodes (handle ev st) = expandedNodes st ∧
  expandedNodes_ref (handle ev st) = expandedNodes_ref st.
Proof. open_handle. destruct ev; intros ?; split_tests. Qed.

(** An event that keeps the selection is followed by one commit. *)
Lemma step_one_commit (ev : Event) (st : AppState) :
  quiescent st →
  selectedEntity (handle ev st) = selectedEntity st →
  step ev st = (commit (handle ev st)).1.
Proof.
  intros Hq Hs. unfold step. apply settle_selected_unchanged.
  destruct (handle_deps ev st) as (-> & _). rewrite Hs. apply Hq.
Qed.

Lemma step_expandedNodes_handle (ev : Event) (st : AppState) :
  quiescent st →
  selectedEntity (handle ev st) = selectedEntity st →
  expandedNodes (step ev st) = expandedNodes (handle ev st) ∧
  selectedEntity (step ev st) = selectedEntity st.
Proof.
  intros Hq Hs. rewrite step_one_commit by done.
  destruct (commit_hooks (handle ev st)) as (_ & -> & -> & _). auto.
Qed.

(** Selecting in the entity [select]: the value is written by the
    handler, and [expandedNodes] by the effect that follows the render. *)
Lemma step_select (e : string) (st : AppState) :
  quiescent st →
  entities st ≠ [] → (e = "" ∨ e ∈ entities st) →
  selectedEntity (step (EntitySelected e) st) = e ∧
  expandedNodes (step (EntitySelected e) st) =
    if bool_decide (e = selectedEntity st ∨ e = "")
    then expandedNodes st else [e].
Proof.
  intros Hq Hne He. unfold step, settle.
  set (st0 := handle (EntitySelected e) st).
  assert (Hsel : selectedEntity st0 = e).
  { unfold st0. rewrite handle_selectedEntity.
    rewrite bool_decide_eq_false_2, bool_decide_eq_true_2 by done.
    reflexivity. }
  assert (Hexp : expandedNodes st0 = expandedNodes st).
  { unfold st0. cbn. split_tests. }
  assert (Hdep : deps_selected st0 = selectedEntity st).
  { unfold st0. destruct (handle_deps (EntitySelected e) st) as (-> & _).
    apply Hq. }
  pose proof (commit_update st0) as Hu.
  pose proof (commit_hooks st0) as (_ & Hs1 & He1 & _).
  destruct (commit st0) as [st1 u]; cbn [fst snd] in *.
  rewrite Hdep, Hsel in Hu. subst u.
  case_bool_decide as H1.
  - rewrite bool_decide_eq_true_2 by (left; congruence).
    split; congruence.
  - case_bool_decide as H2.
    + rewrite bool_decide_eq_true_2 by (now right). split; congruence.
    + rewrite bool_decide_eq_false_2 by (intros [?|?]; congruence).
      pose proof (commit_hooks (setExpandedNodes [e] st1)) as (_ & -> & -> & _).
      cbn. split; congruence.
Qed.

(** ** The root stays expanded between events *)

Lemma handle_root_expanded (ev : Event) (st : AppState) :
  selectedEntity (handle ev st) = selectedEntity st →
  root_expanded st → root_expanded (handle ev st).
Proof.
  unfold root_expanded. intros Hs Hr. rewrite Hs. intros Hne.
  specialize (Hr Hne). revert Hs. open_handle.
  destruct ev; split_tests; intros;
    try (apply elem_of_app; now left); try (apply list_elem_of_singleton; reflexivity).
Qed.

Lemma step_root_expanded (ev : Event) (st : AppState) :
  quiescent st → root_expanded st → root_expanded (step ev st).
Proof.
  intros Hq Hr.
  destruct (decide (selectedEntity (handle ev st) = selectedEntity st)) as [Hs|Hs].
  - destruct (step_expandedNodes_handle ev st Hq Hs) as (He' & Hs').
    pose proof (handle_root_expanded ev st Hs Hr) as Hh.
    unfold root_expanded in *. rewrite He', Hs'. rewrite Hs in Hh. exact Hh.
  - rewrite handle_selectedEntity in Hs.
    destruct ev; try congruence.
    destruct (bool_decide (entities st = [])) eqn:E1; cbn in Hs; try congruence.
    destruct (bool_decide (e = "" ∨ e ∈ entities st)) eqn:E2; cbn in Hs;
      try congruence.
    apply bool_decide_eq_false in E1. apply bool_decide_eq_true in E2.
    destruct (step_select e st Hq E1 E2) as (Hs' & He').
    unfold root_expanded. rewrite Hs', He'. intros Hne.
    rewrite bool_decide_eq_false_2 by (intros [?|?]; congruence).
    apply list_elem_of_singleton. reflexivity.
Qed.

Lemma run_root_expanded (evs : list Event) : root_expanded (run evs init).
Proof.
  assert (H : quiescent (run evs init) ∧ root_expanded (run evs init)).
  { apply (run_invariant (fun st => quiescent st ∧ root_expanded st)).
    - intros ev st [Hq Hr]. split.
      + now apply step_quiescent.
      + now apply step_root_expanded.
    - split; [apply quiescent_init | intros H; now destruct H]. }
  apply H.
Qed.

(** ** Depth of the radial queries *)

Lemma range_value_bounds (raw : Z) : (1 ≤ range_value 1 5 raw ≤ 5)%Z.
Proof. unfold range_value. lia. Qed.

Lemma handle_requests (ev : Event) (st : AppState) (r : Request) :
  r ∈ requests (handle ev st) →
  r ∈ requests st ∨ r = PostUpload ∨ r = GetStats.
Proof.
  open_handle. destruct ev; split_tests; intros Hin; auto;
    apply elem_of_app in Hin as [Hin|Hin]; auto;
    apply list_elem_of_singleton in Hin; auto.
Qed.

Lemma handle_depth (ev : Event) (st : AppState) :
  (1 ≤ depth st ≤ 5)%Z → (1 ≤ depth (handle ev st) ≤ 5)%Z.
Proof.
  intros Hd. open_handle.
  destruct ev; split_tests; apply range_value_bounds.
Qed.

Lemma commit_requests (st : AppState) (r : Request) :
  r ∈ requests (commit st).1 →
  r ∈ requests st
  ∨ r = PostInteractive (selectedEntity st) (expandedNodes st)
  ∨ r = PostRadial (selectedEntity st) (depth st).
Proof.
  open_commit. split_tests; intros Hin; auto;
    apply elem_of_app in Hin as [Hin|Hin]; auto;
    apply list_elem_of_singleton in Hin; subst; auto.
Qed.

Lemma commit_radial_bounded (st : AppState) :
  radial_bounded st → radial_bounded (commit st).1.
Proof.
  intros [Hd Hr]. pose proof (commit_hooks st) as (_ & _ & _ & _ & _ & _ & Hd' & _).
  split.
  - cbn zeta in Hd'. rewrite Hd'. exact Hd.
  - intros e d Hin. apply commit_requests in Hin as [Hin|[Hin|Hin]].
    + eauto.
    + discriminate.
    + now simplify_eq.
Qed.

Lemma step_radial_bounded (ev : Event) (st : AppState) :
  radial_bounded st → radial_bounded (step ev st).
Proof.
  intros [Hd Hr].
  assert (Hh : radial_bounded (handle ev st)).
  { split; [now apply handle_depth|].
    intros e d Hin. apply handle_requests in Hin as [Hin|[Hin|Hin]];
      [eauto | discriminate | discriminate]. }
  unfold step, settle.
  pose proof (commit_radial_bounded _ Hh) as Hc.
  destruct (commit (handle ev st)) as [st1 [l|]]; cbn [fst] in Hc; auto.
  apply commit_radial_bounded. destruct Hc as [Hd1 Hr1]. split; auto.
Qed.

Lemma run_radial_bounded (evs : list Event) : radial_bounded (run evs init).
Proof.
  apply run_invariant; [apply step_radial_bounded|].
  split; cbn; [lia|]. intros e d H. inversion H.
Qed.

(** ** The scene *)

Lemma update_node_params (i : nat) (f : LayoutNode.t → LayoutNode.t)
    (s : Simulation) :
  alphaTarget (update_node i f s) = alphaTarget s ∧
  restarts (update_node i f s) = restarts s ∧
  collision_radius (update_node i f s) = collision_radius s.
Proof. unfold update_node. destruct (sim_nodes s !! i); auto. Qed.

Lemma update_node_lookup (i : nat) (f : LayoutNode.t → LayoutNode.t)
    (s : Simulation) (d : LayoutNode.t) :
  sim_nodes s !! i = Some d →
  sim_nodes (update_node i f s) !! i = Some (f d).
Proof.
  intros H. unfold update_node. rewrite H. cbn.
  apply list_lookup_insert_eq. now apply lookup_lt_Some in H.
Qed.

Lemma scene_ok_fresh (m : Mode) (g : GraphData) :
  scene_ok {| captured_mode := m; simulation := forceSimulation g;
              gestures := [] |}.
Proof. split; cbn; [congruence | reflexivity]. Qed.

Lemma drag_start_ok (i : nat) (sc : Scene) :
  scene_ok sc → scene_ok (drag_start i sc).
Proof.
  intros [Hh Hc]. unfold drag_start.
  destruct (sim_nodes (simulation sc) !! i) eqn:E; [|now split].
  unfold dragstarted. split; cbn.
  - intros _.
    match goal with |- context [update_node ?i ?f ?s] =>
      destruct (update_node_params i f s) as (-> & _) end.
    destruct (gestures sc) eqn:G; cbn; [reflexivity|].
    apply Hh. congruence.
  - intros d.
    match goal with |- context [update_node ?i ?f ?s] =>
      destruct (update_node_params i f s) as (_ & _ & ->) end.
    destruct (length (gestures sc) =? 0)%nat; cbn; apply Hc.
Qed.

Lemma drag_move_ok (i : nat) (ex ey : Q) (sc : Scene) :
  scene_ok sc → scene_ok (drag_move i ex ey sc).
Proof.
  intros [Hh Hc]. unfold drag_move. case_bool_decide; [|now split].
  unfold dragged. split; cbn.
  - match goal with |- context [update_node ?i ?f ?s] =>
      destruct (update_node_params i f s) as (-> & _) end. exact Hh.
  - intros d.
    match goal with |- context [update_node ?i ?f ?s] =>
      destruct (update_node_params i f s) as (_ & _ & ->) end. apply Hc.
Qed.

Lemma drag_end_ok (i : nat) (sc : Scene) :
  scene_ok sc → scene_ok (drag_end i sc).
Proof.
  intros [Hh Hc]. unfold drag_end. case_bool_decide as Hin; [|now split].
  unfold dragended. split; cbn.
  - intros Hne.
    match goal with |- context [update_node ?i ?f ?s] =>
      destruct (update_node_params i f s) as (-> & _) end.
    destruct (remove_first i (gestures sc)) eqn:R; [done|]. cbn.
    apply Hh. intros G. rewrite G in Hin. inversion Hin.
  - intros d.
    match goal with |- context [update_node ?i ?f ?s] =>
      destruct (update_node_params i f s) as (_ & _ & ->) end.
    destruct (length (remove_first i (gestures sc)) =? 0)%nat; cbn; apply Hc.
Qed.

Lemma tick_ok (phys : nat → Q * Q) (sc : Scene) :
  scene_ok sc → scene_ok (set_simulation (tick phys (simulation sc)) sc).
Proof. intros [Hh Hc]. split; cbn; auto. Qed.

Lemma handle_scene_ok (ev : Event) (st : AppState) (sc : Scene) :
  page_ok st → scene (handle ev st) = Some sc → scene_ok sc.
Proof.
  intros Hp. unfold page_ok in Hp. open_handle.
  destruct ev; split_tests; intros Hsc; simplify_eq/=;
    try (destruct (Hp _ eq_refl) as [_ ?]);
    try (destruct (Hp _ Hsc) as [_ ?]);
    auto using drag_start_ok, drag_move_ok, drag_end_ok, tick_ok.
Qed.

Lemma commit_svg_rendered (st : AppState) :
  svg_rendered (commit st).1 = svg_rendered st.
Proof.
  pose proof (commit_hooks st) as (H1 & H2 & _ & H4 & _).
  cbn zeta in *. unfold svg_rendered. now rewrite H1, H2, H4.
Qed.

(** The scene after a commit: gone with the [svg], rebuilt when
    [graphData] is a new object, kept otherwise. *)
Lemma commit_scene (st : AppState) :
  scene (commit st).1 =
    if svg_rendered st
    then if bool_decide (deps_graph st = graphData_ref st) then scene st
         else match graphData st with
              | Some g => Some {| captured_mode := mode st;
                                  simulation := forceSimulation g;
                                  gestures := [] |}
              | None => scene st
              end
    else None.
Proof.
  open_commit. cbn.
  destruct (svg_rendered st) eqn:E; cbn;
    repeat (case_bool_decide || case_match); simplify_eq/=; auto;
    try congruence;
    unfold svg_rendered in *; cbn in *; congruence.
Qed.

Lemma commit_page_ok (st : AppState) :
  (∀ sc, scene st = Some sc → scene_ok sc) → page_ok (commit st).1.
Proof.
  intros Hs sc. rewrite commit_svg_rendered, commit_scene.
  destruct (svg_rendered st); [|discriminate].
  case_bool_decide; [auto|].
  destruct (graphData st); [|auto].
  intros [= <-]. split; [reflexivity | apply scene_ok_fresh].
Qed.

Lemma step_page_ok (ev : Event) (st : AppState) :
  page_ok st → page_ok (step ev st).
Proof.
  intros Hp. unfold step, settle.
  pose proof (commit_page_ok (handle ev st)
                (fun sc => handle_scene_ok ev st sc Hp)) as Hc.
  destruct (commit (handle ev st)) as [st1 [l|]]; cbn [fst] in Hc; auto.
  apply commit_page_ok. intros sc Hsc. apply (Hc sc Hsc).
Qed.

Lemma run_page_ok (evs : list Event) : page_ok (run evs init).
Proof. apply run_invariant; [apply step_page_ok | intros sc H; inversion H]. Qed.

(** ** Click to expand *)

Lemma step_click (evs : list Event) (i : nat) :
  let st := run evs init in
  expandedNodes (step (NodeClicked i) st) =
    expandedNodes (handle (NodeClicked i) st).
Proof.
  intros st. apply step_expandedNodes_handle.
  - apply run_quiescent.
  - now rewrite handle_selectedEntity.
Qed.

(** C1 (as amended): in interactive mode, a click on a node whose
    [expandable] flag is set, in a scene that was drawn in that mode,
    appends the node's identifier to Expansion State whether or not it is
    already there: the listener makes no membership test. *)
Theorem C1_click_appends (evs : list Event) (sc : Scene) (i : nat)
    (d : LayoutNode.t) :
  let st := run evs init in
  mode st = interactive →
  scene st = Some sc →
  sim_nodes (simulation sc) !! i = Some d →
  expandable (LayoutNode.datum d) = true →
  captured_mode sc = interactive →
  expandedNodes (step (NodeClicked i) st)
  = expandedNodes st ++ [id (LayoutNode.datum d)].
Proof.
  intros st _ Hsc Hd He Hm. unfold st. rewrite step_click.
  fold st. cbn. rewrite Hsc. unfold click. rewrite Hd, He, Hm.
  reflexivity.
Qed.

Lemma C1_click_appends_witness :
  expandedNodes (step (NodeClicked 1) at_alice) = ["Alice"; "Acme"].
Proof.
  apply (C1_click_appends session_alice (scene_of at_alice) 1
           (node_at 1 at_alice)); vm_compute; reflexivity.
Defined.

(** C1, as stated, fails: two clicks on Acme before the answer to the
    first one has replaced the scene leave Acme twice in Expansion
    State. *)
Lemma C1_duplicate_counterexample :
  expandedNodes (run [NodeClicked 1; NodeClicked 1] at_alice)
  = ["Alice"; "Acme"; "Acme"].
Proof. vm_compute. reflexivity. Qed.

(** A click that does not pass the listener's test writes nothing. *)
Lemma click_guarded (sc : Scene) (i : nat) (st : AppState) :
  (∀ d, sim_nodes (simulation sc) !! i = Some d →
        expandable (LayoutNode.datum d) = false)
  ∨ captured_mode sc = radial →
  click sc i st = st.
Proof.
  intros H. unfold click.
  destruct (sim_nodes (simulation sc) !! i) as [d|] eqn:E; [|reflexivity].
  destruct H as [H | H].
  - now rewrite (H d eq_refl).
  - rewrite H. cbn. now rewrite andb_false_r.
Qed.

(** C6, evaluated where it fails.  The listeners are created by the
    effect on [[graphData]] and keep the [mode] of that render.  After the
    switch to radial mode, and until a radial answer replaces the scene
    (here the request fails), a click on the expandable node Acme still
    appends it: Expansion State changes while [mode] is [radial]. *)
Theorem C6_click_in_radial_mode_with_stale_scene :
  let st := run [ModeChosen radial; GraphAnswered (Rejected "Failed to fetch")]
              at_alice in
  mode st = radial ∧
  expandedNodes st = ["Alice"] ∧
  expandedNodes (step (NodeClicked 1) st) = ["Alice"; "Acme"] ∧
  requests (step (NodeClicked 1) st)
  = requests st ++ [PostRadial "Alice" 2].
Proof. vm_compute. repeat split. Qed.

(** ** Selection, reset and the root *)

(** C9: selecting another entity in the [select] replaces Expansion
    State, whatever it held, by the list with that entity alone. *)
Theorem C9_selection_replaces_expansion (evs : list Event) (e : string) :
  let st := run evs init in
  e ∈ entities st → e ≠ "" → e ≠ selectedEntity st →
  selectedEntity (step (EntitySelected e) st) = e ∧
  expandedNodes (step (EntitySelected e) st) = [e].
Proof.
  intros st Hin Hne Hdiff.
  assert (Hents : entities st ≠ []).
  { intros E. rewrite E in Hin. inversion Hin. }
  destruct (step_select e st (run_quiescent evs) Hents (or_intror Hin))
    as (Hs & He).
  split; [exact Hs|]. rewrite He.
  now rewrite bool_decide_eq_false_2 by (intros [?|?]; congruence).
Qed.

Lemma C9_selection_replaces_expansion_witness :
  selectedEntity (step (EntitySelected "Bob")
                    (run (session_alice ++ [NodeClicked 1]) init)) = "Bob" ∧
  expandedNodes (step (EntitySelected "Bob")
                   (run (session_alice ++ [NodeClicked 1]) init)) = ["Bob"].
Proof.
  apply (C9_selection_replaces_expansion (session_alice ++ [NodeClicked 1]) "Bob").
  - apply (bool_decide_unpack _). vm_compute. exact I.
  - discriminate.
  - vm_compute. discriminate.
Defined.

(** Reset, from the button of interactive mode. *)
Lemma step_reset (evs : list Event) :
  let st := run evs init in
  entities st ≠ [] → mode st = interactive → selectedEntity st ≠ "" →
  expandedNodes (step ResetClicked st) = [selectedEntity st].
Proof.
  intros st He Hm Hs.
  destruct (step_expandedNodes_handle ResetClicked st (run_quiescent evs))
    as (-> & _); [now rewrite handle_selectedEntity|].
  cbn. unfold handleReset. rewrite Hm.
  rewrite !bool_decide_eq_false_2 by done. reflexivity.
Qed.

(** Between two events the root is expanded, and within a session (the
    selection is kept) an event other than reset keeps every identifier
    that is expanded. *)
Lemma expansion_grows (evs : list Event) (ev : Event) :
  let st := run evs init in
  root_expanded st ∧
  (selectedEntity (step ev st) = selectedEntity st →
   ev ≠ ResetClicked →
   ∀ n, n ∈ expandedNodes st → n ∈ expandedNodes (step ev st)).
Proof.
  intros st. split; [apply run_root_expanded|].
  intros Hs Hr n Hn.
  destruct (decide (selectedEntity (handle ev st) = selectedEntity st))
    as [Hh|Hh].
  - destruct (step_expandedNodes_handle ev st (run_quiescent evs) Hh)
      as (-> & _).
    revert Hh. open_handle. destruct ev; split_tests; intros;
      try congruence; apply elem_of_app; now left.
  - rewrite handle_selectedEntity in Hh. destruct ev; try congruence.
    destruct (bool_decide (entities st = [])) eqn:E1; cbn in Hh;
      try congruence.
    destruct (bool_decide (e = "" ∨ e ∈ entities st)) eqn:E2; cbn in Hh;
      try congruence.
    apply bool_decide_eq_false in E1. apply bool_decide_eq_true in E2.
    destruct (step_select e st (run_quiescent evs) E1 E2) as (Hs' & _).
    congruence.
Qed.

(** C4, evaluated where it fails.  The selection is written by the
    handler of the [select] and Expansion State by an effect that runs
    after the render: the render committed in between has the new root
    and the previous Expansion State, and the [loadGraph] effect of that
    same commit sends them together. *)
Theorem C4_root_missing_in_render_after_selection :
  let st := first_render (EntitySelected "Bob") at_alice in
  selectedEntity st = "Bob" ∧
  expandedNodes st = ["Alice"] ∧
  bool_decide (selectedEntity st ∈ expandedNodes st) = false ∧
  requests st = requests at_alice ++ [PostInteractive "Bob" ["Alice"]].
Proof. vm_compute. repeat split. Qed.

(** ** Mode and depth controls *)

Lemma commit_requests_exact (st : AppState) :
  requests (commit st).1 =
    if bool_decide (deps_load st = load_deps st) then requests st
    else if bool_decide (selectedEntity st = "") then requests st
         else requests st ++ [query st].
Proof.
  unfold query. open_commit. split_tests;
    repeat match goal with H : mode _ = _ |- _ => rewrite H in * end;
    congruence.
Qed.

Lemma step_frame (ev : Event) (st : AppState) :
  quiescent st → writes_expandedNodes ev = false →
  expandedNodes (step ev st) = expandedNodes st ∧
  selectedEntity (step ev st) = selectedEntity st.
Proof.
  intros Hq Hw.
  assert (Hs : selectedEntity (handle ev st) = selectedEntity st).
  { rewrite handle_selectedEntity. destruct ev; try reflexivity; discriminate. }
  destruct (step_expandedNodes_handle ev st Hq Hs) as (-> & ->).
  split; [|reflexivity]. now apply handle_expandedNodes_frame.
Qed.

Lemma step_mode (m : Mode) (st : AppState) :
  quiescent st → entities st ≠ [] →
  let st' := step (ModeChosen m) st in
  entities st' = entities st ∧ mode st' = m ∧
  (mode st ≠ m → selectedEntity st ≠ "" →
   requests st' = requests st ++ [query (setMode m st)]).
Proof.
  intros Hq He st'. unfold st'.
  rewrite step_one_commit by (try done; now rewrite handle_selectedEntity).
  pose proof (commit_hooks (handle (ModeChosen m) st))
    as (H1 & _ & _ & _ & _ & H6 & _).
  cbn zeta in *. rewrite H1, H6, commit_requests_exact. cbn.
  rewrite bool_decide_eq_false_2 by done. cbn.
  repeat split. intros Hm Hs.
  rewrite bool_decide_eq_false_2, bool_decide_eq_false_2; [done|done|].
  destruct Hq as [_ Hl _ _ _]. rewrite Hl. unfold load_deps. cbn.
  intros E. apply Hm. now inversion E.
Qed.

Lemma step_depth (raw : Z) (st : AppState) :
  quiescent st →
  let st' := step (DepthMoved raw) st in
  entities st' = entities st ∧ mode st' = mode st.
Proof.
  intros Hq st'. unfold st'.
  rewrite step_one_commit by (try done; now rewrite handle_selectedEntity).
  pose proof (commit_hooks (handle (DepthMoved raw) st))
    as (H1 & _ & _ & _ & _ & H6 & _).
  cbn zeta in *. rewrite H1, H6. cbn. split_tests.
Qed.

Lemma run_depths (raws : list Z) (st : AppState) :
  quiescent st →
  let st' := run (map DepthMoved raws) st in
  quiescent st' ∧ entities st' = entities st ∧ mode st' = mode st ∧
  selectedEntity st' = selectedEntity st ∧
  expandedNodes st' = expandedNodes st.
Proof.
  revert st. induction raws as [|raw raws IH]; intros st Hq; [cbn; auto|].
  change (run (map DepthMoved (raw :: raws)) st)
    with (run (map DepthMoved raws) (step (DepthMoved raw) st)).
  destruct (IH (step (DepthMoved raw) st)) as (Q' & E' & M' & S' & X');
    [now apply step_quiescent|].
  destruct (step_depth raw st Hq) as (E1 & M1).
  destruct (step_frame (DepthMoved raw) st Hq eq_refl) as (X1 & S1).
  cbn zeta in *. split; [exact Q'|]. repeat split; congruence.
Qed.

(** C10: an event other than a selection, a click on a node or a reset
    leaves Expansion State as it is, in particular the mode radios and
    the depth control; after a stay in radial mode the return to
    interactive mode queries the subgraph of the same Expansion State. *)
Theorem C10_mode_and_depth_keep_expansion (evs : list Event) :
  let st := run evs init in
  (∀ ev, writes_expandedNodes ev = false →
         expandedNodes (step ev st) = expandedNodes st)
  ∧ (∀ m, expandedNodes (step (ModeChosen m) st) = expandedNodes st)
  ∧ (∀ raw, expandedNodes (step (DepthMoved raw) st) = expandedNodes st)
  ∧ (∀ raws,
       entities st ≠ [] → selectedEntity st ≠ "" → mode st = interactive →
       let st' := run (ModeChosen radial :: map DepthMoved raws
                         ++ [ModeChosen interactive]) st in
       mode st' = interactive ∧
       expandedNodes st' = expandedNodes st ∧
       last (requests st')
       = Some (PostInteractive (selectedEntity st) (expandedNodes st))).
Proof.
  intros st. pose proof (run_quiescent evs) as Hq. fold st in Hq.
  split; [|split; [|split]].
  - intros ev Hw. now apply step_frame.
  - intros m. now apply step_frame.
  - intros raw. now apply step_frame.
  - intros raws He Hs Hm. cbn [run fold_left]. fold (run (map DepthMoved raws ++ [ModeChosen interactive]) (step (ModeChosen radial) st)).
    rewrite run_app.
    set (st1 := step (ModeChosen radial) st).
    assert (Hq1 : quiescent st1) by now apply step_quiescent.
    destruct (step_mode radial st Hq He) as (E1 & M1 & _).
    destruct (step_frame (ModeChosen radial) st Hq eq_refl) as (X1 & S1).
    fold st1 in E1, M1, X1, S1. cbn zeta in *.
    destruct (run_depths raws st1 Hq1) as (Q2 & E2 & M2 & S2 & X2).
    cbn zeta in *. set (st2 := run (map DepthMoved raws) st1) in *.
    cbn [run fold_left].
    assert (He2 : entities st2 ≠ []) by congruence.
    destruct (step_mode interactive st2 Q2 He2) as (_ & M3 & R3).
    destruct (step_frame (ModeChosen interactive) st2 Q2 eq_refl) as (X3 & _).
    cbn zeta in *. split; [exact M3|]. split; [congruence|].
    rewrite R3 by congruence. rewrite last_snoc. cbn. congruence.
Qed.

Lemma C10_mode_and_depth_keep_expansion_witness :
  last (requests (run [ModeChosen radial; DepthMoved 4; ModeChosen interactive]
                    (run (session_alice ++ [NodeClicked 1]) init)))
  = Some (PostInteractive "Alice" ["Alice"; "Acme"]).
Proof.
  refine (proj2 (proj2 (proj2 (proj2 (proj2
    (C10_mode_and_depth_keep_expansion (session_alice ++ [NodeClicked 1]))))
    [4%Z] _ _ _))); vm_compute; congruence.
Defined.

(** C8: the depth is an integer between 1 and 5 in every state, whatever
    value the range control is moved to, and so is the depth of every
    radial query that was sent. *)
Theorem C8_radial_depth_bounded (evs : list Event) :
  (1 ≤ depth (run evs init) ≤ 5)%Z ∧
  (∀ raw, (1 ≤ depth (step (DepthMoved raw) (run evs init)) ≤ 5)%Z) ∧
  (∀ e d, PostRadial e d ∈ requests (run evs init) → (1 ≤ d ≤ 5)%Z).
Proof.
  destruct (run_radial_bounded evs) as [Hd Hr].
  split; [exact Hd|]. split; [|exact Hr].
  intros raw.
  change (step (DepthMoved raw) (run evs init))
    with (run [DepthMoved raw] (run evs init)).
  rewrite <- run_app. apply run_radial_bounded.
Qed.

Lemma C8_radial_depth_bounded_witness :
  PostRadial "Alice" 5
    ∈ requests (run (session_alice ++ [ModeChosen radial; DepthMoved 9]) init)
  ∧ (1 ≤ 5 ≤ 5)%Z.
Proof.
  assert (H : PostRadial "Alice" 5
    ∈ requests (run (session_alice ++ [ModeChosen radial; DepthMoved 9]) init)).
  { vm_compute. do 5 apply list_elem_of_further. apply list_elem_of_here. }
  split; [exact H|].
  exact (proj2 (proj2 (C8_radial_depth_bounded
           (session_alice ++ [ModeChosen radial; DepthMoved 9])))
           "Alice" 5%Z H).
Defined.

(** ** Failed requests *)

(** A handler that keeps what the [svg] depends on keeps the scene. *)
Lemma step_scene_kept (ev : Event) (st : AppState) :
  quiescent st → page_ok st →
  entities (handle ev st) = entities st →
  selectedEntity (handle ev st) = selectedEntity st →
  graphData (handle ev st) = graphData st →
  graphData_ref (handle ev st) = graphData_ref st →
  scene (step ev st) = scene (handle ev st) ∧
  (scene (handle ev st) = scene st → scene (step ev st) = scene st).
Proof.
  intros Hq Hp H1 H2 H3 H4.
  assert (Hk : scene (step ev st) = scene (handle ev st) ∨
               (scene (step ev st) = None ∧ svg_rendered st = false)).
  { rewrite step_one_commit by done. rewrite commit_scene.
    assert (Hr : svg_rendered (handle ev st) = svg_rendered st).
    { unfold svg_rendered. now rewrite H1, H2, H3. }
    rewrite Hr. destruct (svg_rendered st); [|now right].
    destruct (handle_deps ev st) as (_ & _ & ->). rewrite H4.
    rewrite bool_decide_eq_true_2 by apply Hq. now left. }
  assert (Hn : svg_rendered st = false → scene st = None).
  { intros Hf. destruct (scene st) as [sc|] eqn:E; [|reflexivity].
    destruct (Hp sc E) as [Ht _]. congruence. }
  assert (Hh : svg_rendered st = false → scene (handle ev st) = None).
  { intros Hf. specialize (Hn Hf). revert H1 H2 H3 H4. open_handle.
    destruct ev; split_tests; congruence. }
  destruct Hk as [Hk | [Hk Hf]].
  - split; [exact Hk | congruence].
  - rewrite Hk. split; [now rewrite Hh | now rewrite Hn].
Qed.

(** When the upload, the statistics request or a graph query is
    rejected, the message is shown with [alert], and Expansion State,
    [graphData] and the scene drawn from it are what they were. *)
Lemma rejected_request_reported (evs : list Event) (message : string) :
  let st := run evs init in
  (uploading st = true → awaiting_stats st = false →
   let st' := step (UploadAnswered (Rejected message)) st in
   alerts st' = alerts st ++ ["Error uploading file: " +:+ message] ∧
   expandedNodes st' = expandedNodes st ∧ graphData st' = graphData st ∧
   scene st' = scene st)
  ∧ (uploading st = true → awaiting_stats st = true →
     let st' := step (StatsAnswered (Rejected message)) st in
     alerts st' = alerts st ++ ["Error uploading file: " +:+ message] ∧
     expandedNodes st' = expandedNodes st ∧ graphData st' = graphData st ∧
     scene st' = scene st)
  ∧ (pending_graph st ≠ 0%nat →
     let st' := step (GraphAnswered (Rejected message)) st in
     alerts st' = alerts st ++ ["Error loading graph: " +:+ message] ∧
     expandedNodes st' = expandedNodes st ∧ graphData st' = graphData st ∧
     scene st' = scene st).
Proof.
  intros st.
  pose proof (run_quiescent evs) as Hq. pose proof (run_page_ok evs) as Hp.
  fold st in Hq, Hp.
  assert (Hgen : ∀ ev msg,
    handle ev st = alert msg st ∨
    handle ev st = setUploading false (alert msg st) ∨
    handle ev st = alert msg (received_graph st) →
    writes_expandedNodes ev = false →
    alerts (step ev st) = alerts st ++ [msg] ∧
    expandedNodes (step ev st) = expandedNodes st ∧
    graphData (step ev st) = graphData st ∧ scene (step ev st) = scene st).
  { intros ev msg Hh Hw.
    assert (Hs : selectedEntity (handle ev st) = selectedEntity st).
    { rewrite handle_selectedEntity. destruct ev; try reflexivity; discriminate. }
    destruct (step_frame ev st Hq Hw) as (HX & _).
    destruct (step_scene_kept ev st Hq Hp) as (_ & HS);
      try (destruct Hh as [-> | [-> | ->]]; reflexivity).
    rewrite step_one_commit by done.
    pose proof (commit_hooks (handle ev st)) as (_ & _ & _ & G & _).
    pose proof (commit_page (handle ev st)) as (A & _).
    cbn zeta in *. rewrite A, G. rewrite step_one_commit in HX, HS by done.
    destruct Hh as [Hh | [Hh | Hh]]; rewrite Hh in *; cbn in *; auto. }
  split; [|split].
  - intros Hu Ha. apply Hgen; [|reflexivity].
    right; left. cbn. now rewrite Hu, Ha.
  - intros Hu Ha. apply Hgen; [|reflexivity].
    right; left. cbn. now rewrite Hu, Ha.
  - intros Hpend. apply Hgen; [|reflexivity].
    right; right. cbn. destruct (pending_graph st); [done|reflexivity].
Qed.

(** An answer with an error body shows no alert. *)
Lemma error_body_shows_nothing (a : ErrorAnswer) (st : AppState) :
  shown_on (answered_with_error a st) = alerts st.
Proof.
  destruct a; cbn; [| |destruct (pending_graph st); reflexivity];
    now destruct (uploading st && _).
Qed.


(** ** The layout of a new result *)

Lemma initializeNodes_lookup (ns : list RenderNode) (i : nat)
    (d : LayoutNode.t) :
  initializeNodes ns !! i = Some d →
  ∃ n, ns !! i = Some n ∧ LayoutNode.datum d = n ∧
       LayoutNode.index d = i ∧
       LayoutNode.x d = Seed AxisX i ∧ LayoutNode.y d = Seed AxisY i ∧
       LayoutNode.fx d = None ∧ LayoutNode.fy d = None.
Proof.
  unfold initializeNodes. rewrite list_lookup_imap.
  destruct (ns !! i) as [n|]; cbn; [|discriminate].
  intros [= <-]. exists n. cbn. repeat split.
Qed.

(** C2 (as amended): when a graph answer arrives, the scene is built anew
    from the answer alone; every node, whether or not its identifier was
    in the previous result, is put on the seed of its index in the new
    node list and is not pinned.  Nothing of the previous scene is read. *)
Theorem C2_layout_rebuilt_from_answer (evs : list Event) (data : GraphData)
    (sc : Scene) :
  let st := run evs init in
  pending_graph st ≠ 0%nat →
  scene (step (GraphAnswered (Resolved data)) st) = Some sc →
  sc = {| captured_mode := mode st; simulation := forceSimulation data;
          gestures := [] |}
  ∧ ∀ i d, sim_nodes (simulation sc) !! i = Some d →
      LayoutNode.x d = Seed AxisX i ∧ LayoutNode.y d = Seed AxisY i ∧
      LayoutNode.fx d = None ∧ LayoutNode.fy d = None.
Proof.
  intros st Hpend Hsc.
  pose proof (run_quiescent evs) as Hq. fold st in Hq.
  assert (Hh : handle (GraphAnswered (Resolved data)) st
               = setGraphData data (received_graph st)).
  { cbn. destruct (pending_graph st); [done|reflexivity]. }
  assert (Hfresh : sc = {| captured_mode := mode st;
                           simulation := forceSimulation data;
                           gestures := [] |}).
  { rewrite step_one_commit in Hsc by (try done; now rewrite handle_selectedEntity).
    rewrite commit_scene, Hh in Hsc. cbn in Hsc.
    destruct (svg_rendered _); [|discriminate].
    rewrite bool_decide_eq_false_2 in Hsc; [congruence|].
    destruct Hq as [_ _ Hg _ Hlt]. rewrite Hg. lia. }
  split; [exact Hfresh|].
  intros i d Hd. rewrite Hfresh in Hd. cbn in Hd.
  apply initializeNodes_lookup in Hd as (n & _ & _ & _ & ? & ? & ? & ?).
  auto.
Qed.

Lemma C2_layout_rebuilt_from_answer_witness :
  scene_of (run [Tick drift; NodeClicked 1; GraphAnswered (Resolved graph_acme)]
              at_alice)
  = {| captured_mode := interactive; simulation := forceSimulation graph_acme;
       gestures := [] |}.
Proof.
  refine (proj1 (C2_layout_rebuilt_from_answer
                   (session_alice ++ [Tick drift; NodeClicked 1])
                   graph_acme _ _ _)).
  - vm_compute. discriminate.
  - vm_compute. reflexivity.
Defined.

(** C2, as stated, fails: Alice is in the result before and after the
    expansion of Acme; the simulation had moved her to (300, 200), and the
    new layout has her back on the seed of index 0 (whose ordinate is 0). *)
Lemma C2_positions_reset_counterexample :
  let before := run [Tick drift; NodeClicked 1] at_alice in
  let after := step (GraphAnswered (Resolved graph_acme)) before in
  position_of "Alice" before = Some (Val 300, Val 200) ∧
  position_of "Alice" after = Some (Seed AxisX 0, Seed AxisY 0).
Proof. vm_compute. split; reflexivity. Qed.

(** ** The collision force *)

(** C3 (as amended): in every scene the collision force has the radius
    40 for every node, whatever the node's [size]; it is the radius the
    node's circle is drawn with only for a node whose [size] is 40. *)
Theorem C3_collision_radius_is_40 (evs : list Event) (sc : Scene)
    (d : LayoutNode.t) :
  scene (run evs init) = Some sc →
  collision_radius (simulation sc) d = 40%Q ∧
  (collision_radius (simulation sc) d = circle_r d
   ↔ size (LayoutNode.datum d) = 40%Q).
Proof.
  intros Hsc. destruct (run_page_ok evs sc Hsc) as [_ [_ Hc]].
  split; [apply Hc|]. rewrite Hc. unfold circle_r. split; congruence.
Qed.

Lemma C3_collision_radius_is_40_witness :
  collision_radius (simulation (scene_of at_alice)) (node_at 1 at_alice) = 40%Q.
Proof.
  refine (proj1 (C3_collision_radius_is_40 session_alice (scene_of at_alice)
                   (node_at 1 at_alice) _)).
  vm_compute. reflexivity.
Defined.

(** C3, as stated, fails: Acme is drawn with radius 20 and Alice with
    radius 30, and both collide at radius 40. *)
Lemma C3_collision_counterexample :
  circle_r (node_at 1 at_alice) = 20%Q ∧
  collision_radius (simulation (scene_of at_alice)) (node_at 1 at_alice) = 40%Q ∧
  Qeq_bool (collision_radius (simulation (scene_of at_alice)) (node_at 1 at_alice))
           (circle_r (node_at 1 at_alice)) = false ∧
  Qeq_bool (collision_radius (simulation (scene_of at_alice)) (node_at 0 at_alice))
           (circle_r (node_at 0 at_alice)) = false.
Proof. vm_compute. repeat split. Qed.

(** ** Drag *)

(** C5: in every scene, for the node [d] at index [i]:
    - a drag start pins [d] where it is ([fx], [fy] become [x], [y], which
      stay) and leaves the alpha target at 0.3; when no other gesture is
      in progress this is done by [alphaTarget(0.3).restart()];
    - a drag move of a gesture on [d] sets [fx], [fy] to the pointer;
    - a drag end of a gesture on [d] sets [fx], [fy] to [null]; when no
      other gesture remains the alpha target is back to 0, otherwise it
      stays at 0.3. *)
Theorem C5_drag_protocol (evs : list Event) (sc : Scene) (i : nat)
    (d : LayoutNode.t) :
  scene (run evs init) = Some sc →
  sim_nodes (simulation sc) !! i = Some d →
  (sim_nodes (simulation (drag_start i sc)) !! i
   = Some {| LayoutNode.datum := LayoutNode.datum d;
             LayoutNode.index := LayoutNode.index d;
             LayoutNode.x := LayoutNode.x d; LayoutNode.y := LayoutNode.y d;
             LayoutNode.fx := Some (LayoutNode.x d);
             LayoutNode.fy := Some (LayoutNode.y d) |}
   ∧ alphaTarget (simulation (drag_start i sc)) = 3 # 10
   ∧ (gestures sc = [] →
      restarts (simulation (drag_start i sc)) = S (restarts (simulation sc)))
   ∧ gestures (drag_start i sc) = i :: gestures sc)
  ∧ (∀ ex ey, i ∈ gestures sc →
       sim_nodes (simulation (drag_move i ex ey sc)) !! i
       = Some {| LayoutNode.datum := LayoutNode.datum d;
                 LayoutNode.index := LayoutNode.index d;
                 LayoutNode.x := LayoutNode.x d; LayoutNode.y := LayoutNode.y d;
                 LayoutNode.fx := Some (Val ex);
                 LayoutNode.fy := Some (Val ey) |})
  ∧ (i ∈ gestures sc →
       sim_nodes (simulation (drag_end i sc)) !! i
       = Some {| LayoutNode.datum := LayoutNode.datum d;
                 LayoutNode.index := LayoutNode.index d;
                 LayoutNode.x := LayoutNode.x d; LayoutNode.y := LayoutNode.y d;
                 LayoutNode.fx := None; LayoutNode.fy := None |}
       ∧ gestures (drag_end i sc) = remove_first i (gestures sc)
       ∧ (remove_first i (gestures sc) = [] →
          alphaTarget (simulation (drag_end i sc)) = 0%Q)
       ∧ (remove_first i (gestures sc) ≠ [] →
          alphaTarget (simulation (drag_end i sc)) = 3 # 10)).
Proof.
  intros Hsc Hd.
  destruct (run_page_ok evs sc Hsc) as [_ Hok].
  split; [|split].
  - pose proof (drag_start_ok i sc Hok) as [Hheat _].
    unfold drag_start in *. rewrite Hd in *. cbn in *.
    split; [|split; [|split]].
    + unfold dragstarted. erewrite update_node_lookup; [reflexivity|].
      destruct (length (gestures sc) =? 0)%nat; exact Hd.
    + apply Hheat. discriminate.
    + intros G. rewrite G. unfold dragstarted. cbn.
      match goal with |- context [update_node ?i ?f ?s] =>
        destruct (update_node_params i f s) as (_ & -> & _) end.
      reflexivity.
    + reflexivity.
  - intros ex ey Hin. unfold drag_move.
    rewrite bool_decide_eq_true_2 by done. cbn. unfold dragged.
    erewrite update_node_lookup; [reflexivity | exact Hd].
  - intros Hin. pose proof (drag_end_ok i sc Hok) as [Hheat _].
    unfold drag_end in *. rewrite bool_decide_eq_true_2 in * by done.
    cbn in *. split; [|split; [|split]].
    + unfold dragended. erewrite update_node_lookup; [reflexivity|].
      destruct (length (remove_first i (gestures sc)) =? 0)%nat; exact Hd.
    + reflexivity.
    + intros R. rewrite R. unfold dragended. cbn.
      match goal with |- context [update_node ?i ?f ?s] =>
        destruct (update_node_params i f s) as (-> & _) end.
      reflexivity.
    + exact Hheat.
Qed.

Lemma C5_drag_protocol_witness :
  alphaTarget (simulation (drag_end 1 (scene_of
    (run [DragStart 1; DragMove 1 640 480; Tick drift] at_alice)))) = 0%Q
  ∧ sim_nodes (simulation (drag_end 1 (scene_of
      (run [DragStart 1; DragMove 1 640 480; Tick drift] at_alice)))) !! 1%nat
    = Some {| LayoutNode.datum := node "Acme" "company" 20 true false false;
              LayoutNode.index := 1;
              LayoutNode.x := Val 640; LayoutNode.y := Val 480;
              LayoutNode.fx := None; LayoutNode.fy := None |}.
Proof.
  destruct (proj2 (proj2 (C5_drag_protocol
              (session_alice ++ [DragStart 1; DragMove 1 640 480; Tick drift])
              (scene_of (run [DragStart 1; DragMove 1 640 480; Tick drift]
                           at_alice))
              1
              {| LayoutNode.datum := node "Acme" "company" 20 true false false;
                 LayoutNode.index := 1;
                 LayoutNode.x := Val 640; LayoutNode.y := Val 480;
                 LayoutNode.fx := Some (Val 640);
                 LayoutNode.fy := Some (Val 480) |}
              ltac:(vm_compute; reflexivity) ltac:(vm_compute; reflexivity)))
              ltac:(apply (bool_decide_unpack _); vm_compute; exact I))
    as (Hn & _ & H0 & _).
  split; [apply H0; vm_compute; reflexivity | exact Hn].
Defined.

(** * Further properties of the component *)

(** ** A render with nothing to do *)

Lemma settle_fixed (st : AppState) :
  quiescent st → page_ok st → settle st = st.
Proof.
  intros [Q1 Q2 Q3 _ _] Hp.
  rewrite settle_selected_unchanged by done.
  unfold commit. rewrite !bool_decide_eq_true_2 by done. cbn.
  assert (Hs : (if svg_rendered st then st else set_scene None st) = st).
  { destruct (svg_rendered st) eqn:E; [reflexivity|].
    destruct (scene st) as [sc|] eqn:Es.
    - destruct (Hp sc Es) as [Ht _]. congruence.
    - destruct st; unfold set_scene; cbn in *. now subst. }
  rewrite Hs. clear Hs Hp. unfold record_deps, load_deps in *.
  destruct st; cbn in *. now subst.
Qed.

Lemma run_settle_fixed (evs : list Event) :
  settle (run evs init) = run evs init.
Proof. apply settle_fixed; [apply run_quiescent | apply run_page_ok]. Qed.

Lemma step_unhandled (evs : list Event) (ev : Event) :
  handle ev (run evs init) = run evs init →
  step ev (run evs init) = run evs init.
Proof. intros H. unfold step. rewrite H. apply run_settle_fixed. Qed.

(** The requests of an event that keeps the selection: those of its
    handler, then the query of [loadGraph] when one of its dependencies
    has changed and an entity is selected. *)
Lemma step_requests (ev : Event) (st : AppState) :
  quiescent st →
  selectedEntity (handle ev st) = selectedEntity st →
  requests (step ev st) =
    if bool_decide (load_deps st = load_deps (handle ev st))
    then requests (handle ev st)
    else if bool_decide (selectedEntity st = "") then requests (handle ev st)
         else requests (handle ev st) ++ [query (handle ev st)].
Proof.
  intros Hq Hs. rewrite step_one_commit by done.
  rewrite commit_requests_exact.
  destruct (handle_deps ev st) as (_ & -> & _).
  destruct Hq as [_ -> _ _ _]. now rewrite Hs.
Qed.

(** X1: choosing again the mode that is chosen, the entity that is
    selected, or moving the depth control to the depth it shows, changes
    nothing and sends nothing. *)
Theorem X1_same_value_changes_nothing (evs : list Event) :
  let st := run evs init in
  step (ModeChosen (mode st)) st = st ∧
  step (EntitySelected (selectedEntity st)) st = st ∧
  (∀ raw, range_value 1 5 raw = depth st → step (DepthMoved raw) st = st).
Proof.
  intros st. unfold st. split; [|split; [|intros raw Hraw]];
    apply step_unhandled; cbn; try rewrite Hraw;
    generalize (run evs init); intros s;
    repeat case_match; try reflexivity; now destruct s.
Qed.

Lemma commit_names_entity (st : AppState) :
  (∀ r, r ∈ requests st → names_entity r) →
  ∀ r, r ∈ requests (commit st).1 → names_entity r.
Proof.
  intros H r. rewrite commit_requests_exact.
  repeat case_bool_decide; auto.
  intros Hin. apply elem_of_app in Hin as [Hin|Hin]; auto.
  apply list_elem_of_singleton in Hin as ->.
  unfold query. destruct (mode st); cbn; done.
Qed.

Lemma step_names_entity (ev : Event) (st : AppState) :
  (∀ r, r ∈ requests st → names_entity r) →
  ∀ r, r ∈ requests (step ev st) → names_entity r.
Proof.
  intros H.
  assert (Hh : ∀ r, r ∈ requests (handle ev st) → names_entity r).
  { intros r Hin. apply handle_requests in Hin as [Hin|[->| ->]]; cbn; auto. }
  unfold step, settle.
  pose proof (commit_names_entity _ Hh) as Hc.
  destruct (commit (handle ev st)) as [st1 [l|]]; cbn [fst] in Hc; auto.
  apply commit_names_entity. exact Hc.
Qed.

(** X2: no query is ever sent without an entity: the entity of every
    interactive or radial request is not the empty string. *)
Theorem X2_queries_name_an_entity (evs : list Event) (r : Request) :
  r ∈ requests (run evs init) → names_entity r.
Proof.
  revert r.
  apply (run_invariant (fun st => ∀ r, r ∈ requests st → names_entity r)).
  - apply step_names_entity.
  - intros r Hin. inversion Hin.
Qed.

Lemma X2_queries_name_an_entity_witness :
  names_entity (PostInteractive "Alice" ["Alice"]).
Proof.
  apply (X2_queries_name_an_entity session_alice).
  vm_compute. do 3 apply list_elem_of_further. apply list_elem_of_here.
Defined.

(** ** Order of Expansion State *)

Lemma handle_root_first (ev : Event) (st : AppState) :
  selectedEntity (handle ev st) = selectedEntity st →
  root_first st → root_first (handle ev st).
Proof.
  unfold root_first. intros Hs Hr. rewrite Hs. intros Hne.
  specialize (Hr Hne). revert Hs. open_handle.
  destruct ev; split_tests; intros;
    destruct (expandedNodes st); cbn in *; congruence.
Qed.

Lemma step_root_first (ev : Event) (st : AppState) :
  quiescent st → root_first st → root_first (step ev st).
Proof.
  intros Hq Hr.
  destruct (decide (selectedEntity (handle ev st) = selectedEntity st)) as [Hs|Hs].
  - destruct (step_expandedNodes_handle ev st Hq Hs) as (He' & Hs').
    pose proof (handle_root_first ev st Hs Hr) as Hh.
    unfold root_first in *. rewrite He', Hs'. rewrite Hs in Hh. exact Hh.
  - rewrite handle_selectedEntity in Hs.
    destruct ev; try congruence.
    destruct (bool_decide (entities st = [])) eqn:E1; cbn in Hs; try congruence.
    destruct (bool_decide (e = "" ∨ e ∈ entities st)) eqn:E2; cbn in Hs;
      try congruence.
    apply bool_decide_eq_false in E1. apply bool_decide_eq_true in E2.
    destruct (step_select e st Hq E1 E2) as (Hs' & He').
    unfold root_first. rewrite Hs', He'. intros Hne.
    now rewrite bool_decide_eq_false_2 by (intros [?|?]; congruence).
Qed.

(** X3: between events, while an entity is selected, it is the first
    element of Expansion State; and a click either leaves Expansion State
    as it is or puts the identifier of the clicked node at its end, the
    elements before it keeping their order. *)
Theorem X3_root_is_first (evs : list Event) :
  let st := run evs init in
  (selectedEntity st ≠ "" →
   head (expandedNodes st) = Some (selectedEntity st)) ∧
  ∀ i, expandedNodes (step (NodeClicked i) st) = expandedNodes st
       ∨ ∃ sc d, scene st = Some sc ∧
                 sim_nodes (simulation sc) !! i = Some d ∧
                 expandedNodes (step (NodeClicked i) st)
                 = expandedNodes st ++ [id (LayoutNode.datum d)].
Proof.
  split.
  - assert (H : quiescent (run evs init) ∧ root_first (run evs init)).
    { apply (run_invariant (fun st => quiescent st ∧ root_first st)).
      - intros ev st [Hq Hr]. split.
        + now apply step_quiescent.
        + now apply step_root_first.
      - split; [apply quiescent_init | intros H; now destruct H]. }
    apply H.
  - intros i. rewrite step_click.
    generalize (run evs init). intros st. unfold handle.
    destruct (scene st) as [sc|] eqn:Hsc; [|now left].
    unfold click.
    destruct (sim_nodes (simulation sc) !! i) as [d|] eqn:Hd; [|now left].
    destruct (expandable (LayoutNode.datum d)
              && Mode_eqb (captured_mode sc) interactive); [|now left].
    right. exists sc, d. auto.
Qed.

Lemma X3_root_is_first_witness :
  head (expandedNodes (run (session_alice ++ [NodeClicked 1]) init))
  = Some "Alice".
Proof.
  apply (proj1 (X3_root_is_first (session_alice ++ [NodeClicked 1]))).
  vm_compute. discriminate.
Defined.

(** ** Queries sent by the controls *)

Lemma scene_selected (evs : list Event) (sc : Scene) :
  scene (run evs init) = Some sc → selectedEntity (run evs init) ≠ "".
Proof.
  intros Hsc. destruct (run_page_ok evs sc Hsc) as [Hr _].
  unfold svg_rendered in Hr. intros E. rewrite E in Hr.
  rewrite (bool_decide_eq_true_2 ("" = "")) in Hr by done.
  cbn in Hr. now rewrite andb_false_r in Hr.
Qed.

(** X4: a click that expands a node sends exactly one query, that of the
    current mode, and in interactive mode it carries Expansion State with
    the clicked identifier at its end. *)
Theorem X4_click_sends_one_query (evs : list Event) (sc : Scene) (i : nat)
    (d : LayoutNode.t) :
  let st := run evs init in
  scene st = Some sc →
  sim_nodes (simulation sc) !! i = Some d →
  expandable (LayoutNode.datum d) = true →
  captured_mode sc = interactive →
  requests (step (NodeClicked i) st)
  = requests st
    ++ [match mode st with
        | interactive =>
            PostInteractive (selectedEntity st)
              (expandedNodes st ++ [id (LayoutNode.datum d)])
        | radial => PostRadial (selectedEntity st) (depth st)
        end].
Proof.
  intros st Hsc Hd He Hm.
  pose proof (run_quiescent evs) as Hq. fold st in Hq.
  pose proof (scene_selected evs sc Hsc) as Hsel. fold st in Hsel.
  assert (Hh : handle (NodeClicked i) st
               = setExpandedNodes (expandedNodes st ++ [id (LayoutNode.datum d)]) st).
  { cbn. rewrite Hsc. unfold click. now rewrite Hd, He, Hm. }
  rewrite step_requests by (try done; now rewrite handle_selectedEntity).
  rewrite Hh. unfold load_deps, query. cbn.
  rewrite bool_decide_eq_false_2.
  - rewrite bool_decide_eq_false_2 by done. reflexivity.
  - destruct Hq as [_ _ _ Hlt _]. intros [= E]. lia.
Qed.

Lemma X4_click_sends_one_query_witness :
  requests (step (NodeClicked 1) at_alice)
  = requests at_alice ++ [PostInteractive "Alice" ["Alice"; "Acme"]].
Proof.
  apply (X4_click_sends_one_query session_alice (scene_of at_alice) 1
           (node_at 1 at_alice)); vm_compute; reflexivity.
Defined.

(** X5: the reset button leaves Expansion State with the selected entity
    alone and always sends the interactive query for it, also when
    Expansion State already was that list (the array is a new one). *)
Theorem X5_reset_requeries (evs : list Event) :
  let st := run evs init in
  entities st ≠ [] → mode st = interactive → selectedEntity st ≠ "" →
  expandedNodes (step ResetClicked st) = [selectedEntity st] ∧
  requests (step ResetClicked st)
  = requests st ++ [PostInteractive (selectedEntity st) [selectedEntity st]].
Proof.
  intros st He Hm Hs.
  pose proof (run_quiescent evs) as Hq. fold st in Hq.
  assert (Hh : handle ResetClicked st = setExpandedNodes [selectedEntity st] st).
  { cbn. unfold handleReset. rewrite Hm.
    now rewrite !bool_decide_eq_false_2 by done. }
  split.
  - destruct (step_expandedNodes_handle ResetClicked st Hq) as (-> & _);
      [now rewrite handle_selectedEntity|]. now rewrite Hh.
  - rewrite step_requests by (try done; now rewrite handle_selectedEntity).
    rewrite Hh. unfold load_deps, query. cbn. rewrite Hm.
    rewrite bool_decide_eq_false_2.
    + rewrite bool_decide_eq_false_2 by done. reflexivity.
    + destruct Hq as [_ _ _ Hlt _]. intros [= E]. lia.
Qed.

Lemma X5_reset_requeries_witness :
  expandedNodes (step ResetClicked at_alice) = ["Alice"] ∧
  requests (step ResetClicked at_alice)
  = requests at_alice ++ [PostInteractive "Alice" ["Alice"]].
Proof.
  apply (X5_reset_requeries session_alice); vm_compute; congruence.
Defined.

(** X6: choosing the other mode sends exactly one query when an entity is
    selected, the one of the new mode (with the Expansion State, or the
    depth, of the moment), and none when no entity is selected. *)
Theorem X6_mode_switch_queries (evs : list Event) (m : Mode) :
  let st := run evs init in
  entities st ≠ [] → mode st ≠ m →
  mode (step (ModeChosen m) st) = m ∧
  requests (step (ModeChosen m) st)
  = if bool_decide (selectedEntity st = "") then requests st
    else requests st
         ++ [match m with
             | interactive =>
                 PostInteractive (selectedEntity st) (expandedNodes st)
             | radial => PostRadial (selectedEntity st) (depth st)
             end].
Proof.
  intros st He Hm.
  pose proof (run_quiescent evs) as Hq. fold st in Hq.
  assert (Hh : handle (ModeChosen m) st = setMode m st).
  { cbn. now rewrite bool_decide_eq_false_2 by done. }
  split.
  - now destruct (step_mode m st Hq He) as (_ & ? & _).
  - rewrite step_requests by (try done; now rewrite handle_selectedEntity).
    rewrite Hh. unfold load_deps, query. cbn.
    rewrite bool_decide_eq_false_2; [reflexivity|].
    intros E. apply Hm. now inversion E.
Qed.

Lemma X6_mode_switch_queries_witness :
  mode (step (ModeChosen radial) at_alice) = radial ∧
  requests (step (ModeChosen radial) at_alice)
  = requests at_alice ++ [PostRadial "Alice" 2].
Proof.
  destruct (X6_mode_switch_queries session_alice radial) as (A & B);
    [vm_compute; congruence | vm_compute; congruence |].
  unfold at_alice. rewrite A, B. vm_compute. split; reflexivity.
Defined.

(** X7: in radial mode, moving the depth control to another depth stores
    it and, when an entity is selected, sends exactly one radial query
    with the new depth. *)
Theorem X7_depth_change_queries (evs : list Event) (raw : Z) :
  let st := run evs init in
  entities st ≠ [] → mode st = radial → range_value 1 5 raw ≠ depth st →
  depth (step (DepthMoved raw) st) = range_value 1 5 raw ∧
  requests (step (DepthMoved raw) st)
  = if bool_decide (selectedEntity st = "") then requests st
    else requests st ++ [PostRadial (selectedEntity st) (range_value 1 5 raw)].
Proof.
  intros st He Hm Hd.
  pose proof (run_quiescent evs) as Hq. fold st in Hq.
  assert (Hh : handle (DepthMoved raw) st = setDepth (range_value 1 5 raw) st).
  { cbn. rewrite Hm. now rewrite bool_decide_eq_false_2 by done. }
  split.
  - rewrite step_one_commit by (try done; now rewrite handle_selectedEntity).
    pose proof (commit_hooks (handle (DepthMoved raw) st))
      as (_ & _ & _ & _ & _ & _ & H7 & _).
    cbn zeta in H7. rewrite H7, Hh. reflexivity.
  - rewrite step_requests by (try done; now rewrite handle_selectedEntity).
    rewrite Hh. unfold load_deps, query. cbn. rewrite Hm.
    rewrite bool_decide_eq_false_2; [reflexivity|].
    intros E. apply Hd. now inversion E.
Qed.

Lemma X7_depth_change_queries_witness :
  depth (step (DepthMoved 9) (run (session_alice ++ [ModeChosen radial]) init))
  = 5%Z ∧
  requests (step (DepthMoved 9) (run (session_alice ++ [ModeChosen radial]) init))
  = requests (run (session_alice ++ [ModeChosen radial]) init)
    ++ [PostRadial "Alice" 5].
Proof.
  destruct (X7_depth_change_queries (session_alice ++ [ModeChosen radial]) 9)
    as (A & B); [vm_compute; congruence .. |].
  rewrite A, B. vm_compute. split; reflexivity.
Defined.

(** ** Leaving the selection *)

(** X8: choosing the empty option of the entity list empties the
    selection, takes the [svg] and its scene off the page and sends
    nothing; Expansion State and [graphData] stay as they were. *)
Theorem X8_deselection (evs : list Event) :
  let st := run evs init in
  entities st ≠ [] →
  let st' := step (EntitySelected "") st in
  selectedEntity st' = "" ∧ expandedNodes st' = expandedNodes st ∧
  graphData st' = graphData st ∧ requests st' = requests st ∧
  scene st' = None.
Proof.
  pose proof (run_quiescent evs) as Hq.
  generalize dependent (run evs init). intros st Hq. cbv zeta. intros He.
  destruct (step_select "" st Hq He (or_introl eq_refl)) as (Hs & Hx).
  rewrite bool_decide_eq_true_2 in Hx by now right.
  assert (Hh : handle (EntitySelected "") st = setSelectedEntity "" st).
  { unfold handle. rewrite bool_decide_eq_false_2 by done.
    now rewrite bool_decide_eq_true_2 by now left. }
  assert (Hst : step (EntitySelected "") st
                = (commit (setSelectedEntity "" st)).1).
  { unfold step, settle. rewrite Hh.
    pose proof (commit_update (setSelectedEntity "" st)) as Hu.
    change (selectedEntity (setSelectedEntity "" st)) with "" in Hu.
    rewrite (bool_decide_eq_true_2 ("" = "")) in Hu by done.
    destruct (commit (setSelectedEntity "" st)) as [st1 u].
    cbn [fst snd] in *. subst u. now destruct (bool_decide _). }
  split; [exact Hs|]. split; [exact Hx|].
  rewrite Hst.
  pose proof (commit_hooks (setSelectedEntity "" st)) as (_ & _ & _ & G & _).
  cbn zeta in G. rewrite G, commit_requests_exact, commit_scene.
  change (selectedEntity (setSelectedEntity "" st)) with "".
  change (requests (setSelectedEntity "" st)) with (requests st).
  change (graphData (setSelectedEntity "" st)) with (graphData st).
  rewrite (bool_decide_eq_true_2 ("" = "")) by done.
  split; [reflexivity|]. split.
  - now destruct (bool_decide _).
  - assert (svg_rendered (setSelectedEntity "" st) = false) as ->; [|done].
    unfold svg_rendered.
    change (selectedEntity (setSelectedEntity "" st)) with "".
    rewrite (bool_decide_eq_true_2 ("" = "")) by done.
    cbn [negb]. now rewrite andb_false_r.
Qed.

Lemma X8_deselection_witness :
  selectedEntity (step (EntitySelected "") at_alice) = "" ∧
  expandedNodes (step (EntitySelected "") at_alice) = ["Alice"] ∧
  scene (step (EntitySelected "") at_alice) = None.
Proof.
  destruct (X8_deselection session_alice) as (A & B & _ & _ & C).
  - vm_compute. discriminate.
  - unfold at_alice. rewrite A, B, C. vm_compute. repeat split.
Defined.

(** ** Invariants of the scene *)

Lemma handle_scene_moved (ev : Event) (st : AppState) (sc' : Scene) :
  scene (handle ev st) = Some sc' →
  ∃ sc, scene st = Some sc ∧ scene_moved sc sc'.
Proof.
  open_handle. destruct ev; split_tests; intros Hsc; simplify_eq/=;
    eauto using scene_moved.
Qed.

Lemma handle_graphData (ev : Event) (st : AppState) :
  (graphData (handle ev st) = graphData st ∧
   graphData_ref (handle ev st) = graphData_ref st)
  ∨ (∃ data, graphData (handle ev st) = Some data ∧
             graphData_ref (handle ev st) = fresh_ref st ∧
             scene (handle ev st) = scene st).
Proof. open_handle. destruct ev; split_tests; right; eauto. Qed.

Lemma settle_graphData (st : AppState) :
  graphData (settle st) = graphData st ∧ mode (settle st) = mode st.
Proof.
  unfold settle.
  pose proof (commit_hooks st) as (_ & _ & _ & G & _ & M & _).
  destruct (commit st) as [st1 [l|]]; cbn [fst] in *; [|auto].
  pose proof (commit_hooks (setExpandedNodes l st1)) as (_ & _ & _ & G' & _ & M' & _).
  cbn zeta in *. rewrite G', M'. cbn. auto.
Qed.

(** The scene after the renders: the one before them, or the one built
    from a [graphData] that is a new object. *)
Lemma settle_scene (st : AppState) (sc : Scene) :
  scene (settle st) = Some sc →
  (deps_graph st = graphData_ref st ∧ scene st = Some sc)
  ∨ (deps_graph st ≠ graphData_ref st ∧
     ((∃ g, graphData st = Some g ∧ sc = fresh_scene (mode st) g)
      ∨ (graphData st = None ∧ scene st = Some sc))).
Proof.
  assert (H1 : ∀ s sc1, scene (commit s).1 = Some sc1 →
    (deps_graph s = graphData_ref s ∧ scene s = Some sc1)
    ∨ (deps_graph s ≠ graphData_ref s ∧
       ((∃ g, graphData s = Some g ∧ sc1 = fresh_scene (mode s) g)
        ∨ (graphData s = None ∧ scene s = Some sc1)))).
  { intros s sc1. rewrite commit_scene.
    destruct (svg_rendered s); [|discriminate].
    case_bool_decide; intros Hsc; [now left|]. right. split; [done|].
    destruct (graphData s) as [g|]; [|now right].
    injection Hsc as <-. left. now exists g. }
  unfold settle.
  pose proof (commit_deps st) as (_ & _ & D).
  pose proof (commit_hooks st) as (_ & _ & _ & G & _ & M & _).
  pose proof (commit_page st) as (_ & _ & _ & R & _).
  pose proof (H1 st) as Hc1.
  destruct (commit st) as [st1 [l|]]; cbn [fst] in *; [|apply Hc1].
  intros Hsc. apply H1 in Hsc as [[_ Hsc]|[Hne _]].
  - cbn in Hsc. now apply Hc1.
  - cbn in Hne. congruence.
Qed.

Lemma scene_invariant (P : GraphData → Scene → Prop) :
  (∀ m g, P g (fresh_scene m g)) →
  (∀ g sc sc', scene_moved sc sc' → P g sc → P g sc') →
  ∀ evs sc, scene (run evs init) = Some sc →
    ∃ g, graphData (run evs init) = Some g ∧ P g sc.
Proof.
  intros Hfresh Hmoved evs.
  assert (H : quiescent (run evs init) ∧
              ∀ sc, scene (run evs init) = Some sc →
                    ∃ g, graphData (run evs init) = Some g ∧ P g sc).
  { apply (run_invariant (fun st => quiescent st ∧
             ∀ sc, scene st = Some sc → ∃ g, graphData st = Some g ∧ P g sc)).
    - intros ev st [Hq Hi]. split; [now apply step_quiescent|].
      intros sc Hsc. unfold step in *.
      destruct (settle_graphData (handle ev st)) as (G & M). rewrite G.
      destruct (handle_deps ev st) as (_ & _ & D).
      destruct Hq as [_ _ Q3 _ Q5].
      apply settle_scene in Hsc.
      destruct (handle_graphData ev st) as [[Hg Hr]|(data & Hg & Hr & Hs)].
      + assert (Hsc' : scene (handle ev st) = Some sc).
        { destruct Hsc as [[_ ?]|[Hne _]]; [done|]. congruence. }
        apply handle_scene_moved in Hsc' as (sc0 & Hsc0 & Hm).
        destruct (Hi sc0 Hsc0) as (g & Hg0 & HP).
        exists g. split; [congruence | eauto].
      + destruct Hsc as [[He _]|[_ [(g & Hg' & ->)|[Hn _]]]].
        * rewrite D, Hr, Q3 in He. lia.
        * exists g. split; [congruence | apply Hfresh].
        * congruence.
    - split; [apply quiescent_init | intros sc Hsc; inversion Hsc]. }
  apply H.
Qed.

Lemma update_node_map {A : Type} (p : LayoutNode.t → A) (i : nat)
    (f : LayoutNode.t → LayoutNode.t) (s : Simulation) :
  (∀ d, p (f d) = p d) →
  map p (sim_nodes (update_node i f s)) = map p (sim_nodes s) ∧
  sim_links (update_node i f s) = sim_links s.
Proof.
  intros Hp. unfold update_node.
  destruct (sim_nodes s !! i) as [d|] eqn:E; [|done]. cbn.
  split; [|reflexivity].
  change (map p) with (fmap (M:=list) p).
  rewrite list_fmap_insert, Hp. apply list_insert_id.
  now rewrite list_lookup_fmap, E.
Qed.

Lemma update_node_other (i j : nat) (f : LayoutNode.t → LayoutNode.t)
    (s : Simulation) :
  i ≠ j → sim_nodes (update_node i f s) !! j = sim_nodes s !! j.
Proof.
  intros Hne. unfold update_node.
  destruct (sim_nodes s !! i); [|done]. cbn.
  now apply list_lookup_insert_ne.
Qed.

Lemma remove_first_other (i j : nat) (l : list nat) :
  j ∈ l → j ≠ i → j ∈ remove_first i l.
Proof.
  induction l as [|k l IH]; cbn; [done|]. intros Hin Hne.
  destruct (Nat.eqb_spec i k) as [->|Hik].
  - apply elem_of_cons in Hin as [->|Hin]; done.
  - apply elem_of_cons in Hin as [->|Hin]; [apply list_elem_of_here|].
    apply list_elem_of_further. auto.
Qed.

Lemma draws_fresh (m : Mode) (g : GraphData) : draws g (fresh_scene m g).
Proof.
  unfold draws.
  change (sim_nodes (simulation (fresh_scene m g)))
    with (initializeNodes (nodes g)).
  unfold initializeNodes. split; [|split; [|done]].
  - apply list_eq. intros i.
    change (map LayoutNode.datum) with (fmap (M:=list) LayoutNode.datum).
    rewrite list_lookup_fmap, list_lookup_imap.
    now destruct (nodes g !! i).
  - apply list_eq. intros i.
    change (map LayoutNode.index) with (fmap (M:=list) LayoutNode.index).
    rewrite list_lookup_fmap, list_lookup_imap.
    destruct (nodes g !! i) as [n|] eqn:E; cbn.
    + symmetry. apply lookup_seq. split; [done|].
      now apply lookup_lt_Some in E.
    + symmetry. apply lookup_seq_ge. now apply lookup_ge_None in E.
Qed.

Lemma draws_moved (g : GraphData) (sc sc' : Scene) :
  scene_moved sc sc' → draws g sc → draws g sc'.
Proof.
  intros Hm (H1 & H2 & H3). unfold draws.
  destruct Hm as [ | i | i ex ey | i | phys ]; [done | | | | ].
  - unfold drag_start. destruct (sim_nodes (simulation sc) !! i); [|done].
    cbn. unfold dragstarted.
    match goal with |- context [update_node ?i ?f ?s] =>
      destruct (update_node_map LayoutNode.datum i f s) as (-> & ->); [done|];
      destruct (update_node_map LayoutNode.index i f s) as (-> & _); [done|]
    end.
    destruct (length (gestures sc) =? 0)%nat; cbn; auto.
  - unfold drag_move. case_bool_decide; [|done]. cbn. unfold dragged.
    match goal with |- context [update_node ?i ?f ?s] =>
      destruct (update_node_map LayoutNode.datum i f s) as (-> & ->); [done|];
      destruct (update_node_map LayoutNode.index i f s) as (-> & _); [done|]
    end. auto.
  - unfold drag_end. case_bool_decide; [|done]. cbn. unfold dragended.
    match goal with |- context [update_node ?i ?f ?s] =>
      destruct (update_node_map LayoutNode.datum i f s) as (-> & ->); [done|];
      destruct (update_node_map LayoutNode.index i f s) as (-> & _); [done|]
    end.
    destruct (length (remove_first i (gestures sc)) =? 0)%nat; cbn; auto.
  - cbn. rewrite !map_map. cbn. auto.
Qed.

(** X9: what the [svg] shows is the current [graphData]: whenever there
    is a scene, [graphData] is not [null], the nodes of the simulation are
    its nodes, in its order and indexed from 0, and the links are its
    links, whatever has been dragged or simulated since. *)
Theorem X9_scene_draws_graphData (evs : list Event) (sc : Scene) :
  scene (run evs init) = Some sc →
  ∃ g, graphData (run evs init) = Some g ∧ draws g sc.
Proof.
  apply (scene_invariant draws).
  - apply draws_fresh.
  - intros g s s'. apply draws_moved.
Qed.

Lemma X9_scene_draws_graphData_witness :
  ∃ g, graphData (run (session_alice ++ [DragStart 1; Tick drift]) init)
       = Some g ∧
       draws g (scene_of (run (session_alice ++ [DragStart 1; Tick drift]) init)).
Proof.
  apply (X9_scene_draws_graphData (session_alice ++ [DragStart 1; Tick drift])).
  vm_compute. reflexivity.
Defined.

Lemma pins_held_fresh (m : Mode) (g : GraphData) : pins_held (fresh_scene m g).
Proof.
  split; [reflexivity|]. cbn. intros i d Hd.
  apply initializeNodes_lookup in Hd as (_ & _ & _ & _ & _ & _ & -> & ->).
  intros [[? [=]]|[? [=]]].
Qed.

Lemma pins_held_moved (sc sc' : Scene) :
  scene_moved sc sc' → pins_held sc → pins_held sc'.
Proof.
  intros Hm [Ha Hp].
  destruct Hm as [ | i | i ex ey | i | phys ]; [done | | | | ].
  - unfold drag_start.
    destruct (sim_nodes (simulation sc) !! i) as [di|] eqn:Ei; [|done].
    split; cbn; [discriminate|]. intros j d Hd Hpin.
    destruct (decide (i = j)) as [->|Hne]; [apply list_elem_of_here|].
    apply list_elem_of_further. apply (Hp j d); [|done].
    unfold dragstarted in Hd. rewrite update_node_other in Hd by done.
    now destruct (length (gestures sc) =? 0)%nat.
  - unfold drag_move. case_bool_decide as Hin; [|done].
    split; cbn.
    { unfold dragged.
      match goal with |- context [update_node ?i ?f ?s] =>
        destruct (update_node_params i f s) as (-> & _) end.
      exact Ha. }
    intros j d Hd Hpin.
    destruct (decide (i = j)) as [->|Hne]; [done|].
    apply (Hp j d); [|done]. unfold dragged in Hd.
    now rewrite update_node_other in Hd.
  - unfold drag_end. case_bool_decide as Hin; [|done].
    split; cbn.
    + intros ->. unfold dragended. cbn.
      match goal with |- context [update_node ?i ?f ?s] =>
        destruct (update_node_params i f s) as (-> & _) end.
      reflexivity.
    + intros j d Hd Hpin.
      destruct (decide (i = j)) as [->|Hne].
      * exfalso.
        destruct (sim_nodes (simulation sc) !! j) as [dj|] eqn:Ej.
        -- assert (Hl : sim_nodes (dragended
                          (length (remove_first j (gestures sc))) j
                          (simulation sc)) !! j
                        = Some (LayoutNode.set_fy None
                                  (LayoutNode.set_fx None dj))).
           { unfold dragended.
             apply (update_node_lookup j
                      (fun d => LayoutNode.set_fy None
                                  (LayoutNode.set_fx None d))).
             destruct (length _ =? 0)%nat; exact Ej. }
           rewrite Hl in Hd. injection Hd as <-.
           destruct Hpin as [[? [=]]|[? [=]]].
        -- unfold dragended, update_node in Hd.
           destruct (length _ =? 0)%nat; cbn in Hd; rewrite Ej in Hd;
             cbn in Hd; congruence.
      * unfold dragended in Hd.
        rewrite update_node_other in Hd by done.
        apply remove_first_other; [|congruence].
        apply (Hp j d); [|done].
        now destruct (length _ =? 0)%nat.
  - split; cbn; [exact Ha|]. intros j d Hd Hpin.
    change (map ?f ?l) with (fmap (M:=list) f l) in Hd.
    rewrite list_lookup_fmap in Hd.
    destruct (sim_nodes (simulation sc) !! j) as [dj|] eqn:Ej; [|done].
    cbn in Hd. injection Hd as <-. cbn in Hpin. now apply (Hp j dj).
Qed.

Lemma run_pins_held (evs : list Event) (sc : Scene) :
  scene (run evs init) = Some sc → pins_held sc.
Proof.
  intros Hsc.
  destruct (scene_invariant (fun _ => pins_held)
              (fun m g => pins_held_fresh m g)
              (fun _ s s' => pins_held_moved s s') evs sc Hsc)
    as (_ & _ & H).
  exact H.
Qed.

Lemma rest_without_gesture (evs : list Event) (sc : Scene) :
  scene (run evs init) = Some sc → gestures sc = [] → at_rest sc.
Proof.
  intros Hsc Hg. destruct (run_pins_held evs sc Hsc) as [Ha Hp].
  split; [auto|]. intros i d Hd.
  destruct (LayoutNode.fx d) as [c|] eqn:Ex.
  - specialize (Hp i d Hd (or_introl (ex_intro _ c Ex))).
    rewrite Hg in Hp. inversion Hp.
  - destruct (LayoutNode.fy d) as [c|] eqn:Ey; [|done].
    specialize (Hp i d Hd (or_intror (ex_intro _ c Ey))).
    rewrite Hg in Hp. inversion Hp.
Qed.

(** X10: when no drag gesture is in progress, the alpha target is 0 and
    no node of the scene is pinned: every listener that pinned a node has
    released it. *)
Theorem X10_no_gesture_no_pin (evs : list Event) (sc : Scene) :
  scene (run evs init) = Some sc → gestures sc = [] → at_rest sc.
Proof. apply rest_without_gesture. Qed.

Lemma X10_no_gesture_no_pin_witness :
  at_rest (scene_of (run (session_alice
     ++ [DragStart 1; DragMove 1 640 480; Tick drift; DragEnd 1]) init)).
Proof.
  apply (X10_no_gesture_no_pin (session_alice
     ++ [DragStart 1; DragMove 1 640 480; Tick drift; DragEnd 1]));
    vm_compute; reflexivity.
Defined.

(** X11: a gesture on a node of a scene at rest, start, move and end with
    no simulation step in between, leaves the scene as it was but for one
    more [restart()]: the listeners write [fx]/[fy] and the alpha target
    only, never [x]/[y]. *)
Theorem X11_drag_without_tick_restores (evs : list Event) (sc : Scene)
    (i : nat) (d : LayoutNode.t) (ex ey : Q) :
  scene (run evs init) = Some sc → gestures sc = [] →
  sim_nodes (simulation sc) !! i = Some d →
  drag_end i (drag_move i ex ey (drag_start i sc))
  = set_simulation (restart (simulation sc)) sc.
Proof.
  intros Hsc Hg Hd.
  destruct (rest_without_gesture evs sc Hsc Hg) as [Ha Hp].
  destruct (Hp i d Hd) as [Hx Hy].
  unfold drag_start. rewrite Hd, Hg. cbn.
  unfold drag_move. cbn. rewrite bool_decide_eq_true_2 by apply list_elem_of_here.
  unfold drag_end. cbn. rewrite bool_decide_eq_true_2 by apply list_elem_of_here.
  cbn. rewrite Nat.eqb_refl. cbn.
  unfold dragended, dragged, dragstarted, update_node. cbn.
  rewrite Hd. cbn.
  rewrite list_lookup_insert_eq by (now apply lookup_lt_Some in Hd). cbn.
  rewrite list_lookup_insert_eq
    by (rewrite length_insert; now apply lookup_lt_Some in Hd). cbn.
  rewrite !list_insert_insert_eq.
  unfold set_simulation, restart, set_sim_nodes, set_alphaTarget. cbn.
  destruct sc as [m s g]. destruct s. destruct d. cbn in *. subst.
  unfold set_gestures. cbn. rewrite list_insert_id by exact Hd.
  reflexivity.
Qed.

Lemma X11_drag_without_tick_restores_witness :
  drag_end 1 (drag_move 1 640 480 (drag_start 1 (scene_of at_alice)))
  = set_simulation (restart (simulation (scene_of at_alice))) (scene_of at_alice).
Proof.
  apply (X11_drag_without_tick_restores session_alice (scene_of at_alice) 1
           (node_at 1 at_alice)); vm_compute; reflexivity.
Defined.

(** ** Alerts *)

Lemma step_alerts (ev : Event) (st : AppState) :
  alerts (step ev st) = alerts (handle ev st).
Proof.
  unfold step, settle.
  pose proof (commit_page (handle ev st)) as (A & _).
  destruct (commit (handle ev st)) as [st1 [l|]]; cbn [fst] in *; [|exact A].
  pose proof (commit_page (setExpandedNodes l st1)) as (A' & _).
  cbn zeta in A'. rewrite A'. exact A.
Qed.

Lemma handle_alerts (ev : Event) (st : AppState) :
  alerts (handle ev st) = alerts st
  ∨ (is_rejection ev = true ∧
     ∃ a, alert_text ev = Some a ∧ alerts (handle ev st) = alerts st ++ [a]).
Proof.
  open_handle. destruct ev; split_tests; right; split; eauto.
Qed.

Lemma run_alerts (evs : list Event) (st : AppState) :
  ∃ l, alerts (run evs st) = alerts st ++ l ∧
       sublist l (omap alert_text evs) ∧
       (length l ≤ rejections evs)%nat.
Proof.
  revert st. induction evs as [|ev evs IH]; intros st.
  - exists []. change (run [] st) with st. rewrite app_nil_r.
    repeat split; [constructor | cbn [length rejections]; lia].
  - change (run (ev :: evs) st) with (run evs (step ev st)).
    destruct (IH (step ev st)) as (l & E & Hs & Hl).
    rewrite step_alerts in E. cbn [rejections].
    change (omap alert_text (ev :: evs))
      with (match alert_text ev with
            | Some a => a :: omap alert_text evs
            | None => omap alert_text evs
            end).
    destruct (handle_alerts ev st) as [Eh|(R & a & Ht & Eh)].
    + exists l. rewrite Eh in E. split; [exact E|]. split.
      * destruct (alert_text ev); [now apply sublist_cons | exact Hs].
      * destruct (is_rejection ev); lia.
    + exists (a :: l). rewrite Eh, <- app_assoc in E. split; [exact E|].
      rewrite Ht, R. split; [now apply sublist_skip | cbn [length]; lia].
Qed.

(** X12: the alerts that have been shown are, in order, alerts of
    rejected answers of the run, at most one for each; the text of each
    is that of its [catch] block followed by the message of the
    rejection it reports. *)
Theorem X12_alerts_report_failures (evs : list Event) :
  (length (alerts (run evs init)) ≤ rejections evs)%nat ∧
  sublist (alerts (run evs init)) (omap alert_text evs).
Proof.
  destruct (run_alerts evs init) as (l & E & Hs & Hl).
  change (alerts init) with (@nil string) in E. rewrite app_nil_l in E.
  rewrite E. auto.
Qed.

(** ** Uploads *)

Lemma step_upload_hooks (ev : Event) (st : AppState) :
  quiescent st → of_upload ev = true →
  entities (step ev st) = entities (handle ev st) ∧
  stats (step ev st) = stats (handle ev st) ∧
  uploading (step ev st) = uploading (handle ev st) ∧
  awaiting_stats (step ev st) = awaiting_stats (handle ev st) ∧
  selectedEntity (step ev st) = selectedEntity st ∧
  expandedNodes (step ev st) = expandedNodes st ∧
  graphData (step ev st) = graphData st ∧
  mode (step ev st) = mode st ∧ depth (step ev st) = depth st ∧
  requests (step ev st) = requests (handle ev st).
Proof.
  intros Hq Hu.
  assert (Hs : selectedEntity (handle ev st) = selectedEntity st).
  { rewrite handle_selectedEntity. destruct ev; try reflexivity; discriminate. }
  rewrite step_requests by done.
  rewrite step_one_commit by done.
  pose proof (commit_hooks (handle ev st))
    as (-> & -> & -> & -> & -> & -> & -> & ->).
  pose proof (commit_page (handle ev st)) as (_ & -> & _).
  assert (Hf : expandedNodes (handle ev st) = expandedNodes st ∧
               graphData (handle ev st) = graphData st ∧
               mode (handle ev st) = mode st ∧
               depth (handle ev st) = depth st ∧
               load_deps (handle ev st) = load_deps st).
  { clear Hs. unfold load_deps. open_handle.
    destruct ev; try discriminate; split_tests. }
  destruct Hf as (-> & -> & -> & -> & ->).
  rewrite bool_decide_eq_true_2 by done. repeat split; auto.
Qed.

(** X13: an upload whose two requests are each rejected or answered with
    a body of the expected shape ends with [uploading] false.  The entity
    list is replaced as soon as the upload is answered with its body, the
    statistics only when both requests are: a rejected statistics request
    leaves the new entities with the previous statistics. *)
Theorem X13_upload_outcomes (evs : list Event) (o1 : Outcome (list string))
    (o2 : Outcome Stats) :
  let st := run evs init in
  uploading st = false →
  let st' := run [FileChosen; UploadAnswered o1; StatsAnswered o2] st in
  uploading (step FileChosen st) = true ∧
  uploading st' = false ∧
  entities st' = match o1 with
                 | Resolved data_entities => data_entities
                 | Rejected _ => entities st
                 end ∧
  stats st' = match o1, o2 with
              | Resolved _, Resolved statsData => Some statsData
              | _, _ => stats st
              end.
Proof.
  pose proof (run_quiescent evs) as Hq.
  generalize dependent (run evs init). intros st Hq. cbv zeta. intros Hu.
  change (run [FileChosen; UploadAnswered o1; StatsAnswered o2] st)
    with (step (StatsAnswered o2)
            (step (UploadAnswered o1) (step FileChosen st))).
  (* the file is chosen *)
  destruct (step_upload_hooks FileChosen st Hq eq_refl)
    as (E1 & S1 & U1 & A1 & _).
  assert (Hh1 : handle FileChosen st = uploadFile st)
    by (unfold handle; now rewrite Hu).
  rewrite Hh1 in E1, S1, U1, A1.
  assert (Hq1 : quiescent (step FileChosen st)) by now apply step_quiescent.
  remember (step FileChosen st) as s1 eqn:Hs1. clear Hs1 Hh1.
  cbn in E1, S1, U1, A1.
  split; [exact U1|].
  (* the upload is answered *)
  destruct (step_upload_hooks (UploadAnswered o1) s1 Hq1 eq_refl)
    as (E2 & S2 & U2 & A2 & _).
  assert (Hh2 : handle (UploadAnswered o1) s1 = uploadFile_uploaded o1 s1)
    by (unfold handle; now rewrite U1, A1).
  rewrite Hh2 in E2, S2, U2, A2.
  assert (Hq2 : quiescent (step (UploadAnswered o1) s1))
    by now apply step_quiescent.
  remember (step (UploadAnswered o1) s1) as s2 eqn:Hs2. clear Hs2 Hh2.
  (* the statistics are answered, if they were asked for *)
  destruct (step_upload_hooks (StatsAnswered o2) s2 Hq2 eq_refl)
    as (E3 & S3 & U3 & A3 & _).
  destruct o1 as [m1|ents]; cbn in E2, S2, U2, A2.
  - assert (Hh3 : handle (StatsAnswered o2) s2 = s2)
      by (unfold handle; now rewrite U2).
    rewrite Hh3 in E3, S3, U3. repeat split; congruence.
  - assert (Hh3 : handle (StatsAnswered o2) s2 = uploadFile_stats o2 s2)
      by (unfold handle; now rewrite U2, U1, A2).
    rewrite Hh3 in E3, S3, U3.
    remember (step (StatsAnswered o2) s2) as s3 eqn:Hs3. clear Hs3 Hh3.
    destruct o2 as [m2|sd]; cbn in E3, S3, U3; repeat split; congruence.
Qed.

Lemma X13_upload_outcomes_witness :
  entities (run [FileChosen; UploadAnswered (Resolved ["Carol"]);
                 StatsAnswered (Rejected "Failed to fetch")] at_alice)
  = ["Carol"] ∧
  stats (run [FileChosen; UploadAnswered (Resolved ["Carol"]);
              StatsAnswered (Rejected "Failed to fetch")] at_alice)
  = Some stats_example.
Proof.
  destruct (X13_upload_outcomes session_alice (Resolved ["Carol"])
              (Rejected "Failed to fetch")) as (_ & _ & E & S).
  - vm_compute. reflexivity.
  - unfold at_alice. rewrite E, S. vm_compute. split; reflexivity.
Defined.

(** X14: a step of an upload, its answers being rejections or bodies of
    the expected shape, does not touch the session: the selection,
    Expansion State, [graphData], the mode and the depth are what they
    were, also when the selected entity is not in the new list, and no
    graph query is sent. *)
Theorem X14_upload_keeps_session (evs : list Event) (ev : Event) :
  let st := run evs init in
  of_upload ev = true →
  selectedEntity (step ev st) = selectedEntity st ∧
  expandedNodes (step ev st) = expandedNodes st ∧
  graphData (step ev st) = graphData st ∧
  mode (step ev st) = mode st ∧ depth (step ev st) = depth st ∧
  ∀ r, r ∈ requests (step ev st) →
       r ∈ requests st ∨ r = PostUpload ∨ r = GetStats.
Proof.
  intros st Hu.
  destruct (step_upload_hooks ev st (run_quiescent evs) Hu)
    as (_ & _ & _ & _ & H1 & H2 & H3 & H4 & H5 & H6).
  repeat split; auto.
  intros r. rewrite H6. apply handle_requests.
Qed.

Lemma X14_upload_keeps_session_witness :
  selectedEntity (step (UploadAnswered (Resolved ["Carol"]))
                    (run (session_alice ++ [FileChosen]) init)) = "Alice" ∧
  expandedNodes (step (UploadAnswered (Resolved ["Carol"]))
                   (run (session_alice ++ [FileChosen]) init)) = ["Alice"].
Proof.
  destruct (X14_upload_keeps_session (session_alice ++ [FileChosen])
              (UploadAnswered (Resolved ["Carol"])) eq_refl)
    as (A & B & _).
  rewrite A, B. vm_compute. split; reflexivity.
Defined.

(** ** What a node invites to *)

Lemma append_cancel (s a b : string) : s +:+ a = s +:+ b → a = b.
Proof. induction s as [|c s IH]; cbn; [done|]. intros [= H]. auto. Qed.

Lemma append_empty (s a : string) : s = s +:+ a → a = "".
Proof.
  induction s as [|c s IH]; cbn; [done|]. intros [= H]. auto.
Qed.

(** X15: in a scene whose listeners were created in interactive mode, the
    nodes that show the pointer cursor are exactly those on which a click
    changes Expansion State, and exactly those whose tooltip ends with
    the invitation to click. *)
Theorem X15_invitation_matches_click (evs : list Event) (sc : Scene)
    (i : nat) (d : LayoutNode.t) :
  let st := run evs init in
  scene st = Some sc →
  sim_nodes (simulation sc) !! i = Some d →
  captured_mode sc = interactive →
  (cursor d = "pointer"
   ↔ expandedNodes (step (NodeClicked i) st) ≠ expandedNodes st) ∧
  (cursor d = "pointer"
   ↔ title d = caption d +:+ newline +:+ "👆 Click to expand").
Proof.
  intros st Hsc Hd Hm. unfold st. rewrite step_click. fold st.
  cbn. rewrite Hsc. unfold click, cursor, title. rewrite Hd, Hm.
  destruct (expandable (LayoutNode.datum d)); cbn.
  - split; split; try done. intros _ E.
    apply (f_equal length) in E. rewrite length_app in E. cbn in E. lia.
  - split; split; try done.
    destruct (expanded (LayoutNode.datum d)); intros E.
    + apply append_cancel in E. discriminate.
    + apply append_empty in E. discriminate.
Qed.

Lemma X15_invitation_matches_click_witness :
  cursor (node_at 1 at_alice) = "pointer"
  ↔ expandedNodes (step (NodeClicked 1) at_alice) ≠ expandedNodes at_alice.
Proof.
  apply (X15_invitation_matches_click session_alice (scene_of at_alice) 1
           (node_at 1 at_alice)); vm_compute; reflexivity.
Defined.
